(** * Canary — the Texas Hold'em engine of [cogs/poker.py]

    A shallow embedding of the classes [PokerPlayer] and [PokerGame] and the
    properties of the game engine checked against it.

    Conventions of the embedding.
    - A [Decimal] amount is kept as the rational it denotes ([Q]); [==] on
      amounts is [Qeq].  [+], [-] and [/] on amounts round their exact result
      to the 28 significant digits of the decimal context, as [Decimal]
      does.  Exponent limits, NaN and infinities are outside the model.
    - Discord user ids are integers ([Z]).
    - A Python [dict] is an association list in insertion order (iteration
      order is observable in [_get_fold_winner]).
    - A method is a computation over a [World]: the [PokerGame] object
      ([self]) and the list of events handed to the chat channel.  A raised
      exception keeps every mutation made before it, as in Python.
    - A message is kept as its send site together with its format arguments;
      the rendering of the text is not modelled. *)

From Stdlib Require Import ZArith QArith List String Bool Lia Lqa.
Import ListNotations.

Local Open Scope Z_scope.

(** ** Module constants *)

Definition SUITS : list string := ["H"; "S"; "C"; "D"]%string.

Definition NUMBERS : list string :=
  ["2"; "3"; "4"; "5"; "6"; "7"; "8"; "9"; "10"; "J"; "Q"; "K"; "A"]%string.

(** A card is the tuple [(suit, number)]. *)
Definition Card : Type := (string * string)%type.

Definition DECK : list Card :=
  flat_map (fun number => map (fun suit => (suit, number)) SUITS) NUMBERS.

Definition STATUS_IN : string := "in".
Definition STATUS_ALL_IN : string := "all in".
Definition STATUS_FOLDED : string := "folded".

Definition MOVE_FOLD : string := "pk_fold".
Definition MOVE_CHECK : string := "pk_check".
Definition MOVE_CALL : string := "pk_call".
Definition MOVE_RAISE : string := "pk_raise".
Definition MOVE_ALL_IN : string := "pk_all_in".

Definition ROUND_STAGES : list Z := [0; 3; 4; 5].

Definition TIMEOUT_MINUTES : Z := 10.

(** ** Python values *)

Inductive Exception : Type :=
| AttributeError
| TypeError
| ValueError
| KeyError
| IndexError
| ZeroDivisionError.

(** What evaluating an expression or running a statement ends in.
    [Unfinished] is a [while] loop that used up its iteration budget. *)
Inductive Outcome (A : Type) : Type :=
| Returned (a : A)
| Raised (e : Exception)
| Unfinished.

Arguments Returned {A} a.
Arguments Raised {A} e.
Arguments Unfinished {A}.

(** [l[i]] on a list, with Python's negative indices. *)
Definition list_getitem {A : Type} (l : list A) (i : Z) : Outcome A :=
  let n := Z.of_nat (List.length l) in
  let j := if i <? 0 then i + n else i in
  if (j <? 0) || (n <=? j) then Raised IndexError
  else match nth_error l (Z.to_nat j) with
       | Some x => Returned x
       | None => Raised IndexError
       end.

(** [l.index(x)] on a list of integers. *)
Fixpoint list_index (x : Z) (l : list Z) : Outcome Z :=
  match l with
  | [] => Raised ValueError
  | y :: r =>
      if y =? x then Returned 0
      else match list_index x r with
           | Returned i => Returned (i + 1)
           | other => other
           end
  end.

(** [a % b] on integers. *)
Definition int_mod (a b : Z) : Outcome Z :=
  if b =? 0 then Raised ZeroDivisionError else Returned (a mod b).

(** Subscripting an integer: [p["status"]] where [p] is an [int]. *)
Definition int_getitem (p : Z) (key : string) : Outcome string :=
  Raised TypeError.

(** Reading an attribute of an integer that [int] does not have
    ([get_status], [name]). *)
Definition int_getattr {A : Type} (p : Z) (attr : string) : Outcome A :=
  Raised AttributeError.

(** Dictionaries keyed by user id. *)
Definition dict (V : Type) : Type := list (Z * V).

Fixpoint dict_get {V : Type} (d : dict V) (k : Z) : option V :=
  match d with
  | [] => None
  | (k', v) :: r => if k' =? k then Some v else dict_get r k
  end.

Definition dict_contains {V : Type} (d : dict V) (k : Z) : bool :=
  match dict_get d k with Some _ => true | None => false end.

(** [d[k] = v]: replaces in place, or appends a new key. *)
Fixpoint dict_set {V : Type} (d : dict V) (k : Z) (v : V) : dict V :=
  match d with
  | [] => [(k, v)]
  | (k', v') :: r =>
      if k' =? k then (k', v) :: r else (k', v') :: dict_set r k v
  end.

(** Mutation of the object stored under [k]. *)
Fixpoint dict_update {V : Type} (d : dict V) (k : Z) (f : V -> V) : dict V :=
  match d with
  | [] => []
  | (k', v) :: r =>
      if k' =? k then (k', f v) :: r else (k', v) :: dict_update r k f
  end.

Definition dict_keys {V : Type} (d : dict V) : list Z := map fst d.

(** ** The decimal context

    The module never touches [getcontext()], so every [Decimal] operation
    runs in the default context: the exact result is rounded to 28
    significant digits, a tie going to the even digit ([ROUND_HALF_EVEN]).
    A result that fits into 28 digits is exact. *)

Definition PREC : Z := 28.

(** [n / d] rounded to the nearest integer, ties to even ([0 <= n], [0 < d]). *)
Definition round_half_even (n d : Z) : Z :=
  let q := n / d in
  match 2 * (n mod d) ?= d with
  | Lt => q
  | Gt => q + 1
  | Eq => if Z.even q then q else q + 1
  end.

(** Whether [n / d] has a digit at the position that becomes the first of
    28 digits when the last one is at exponent [e]: [10 ^ (27 + e) <= n / d]. *)
Definition reaches (n d e : Z) : bool :=
  let k := PREC - 1 + e in
  if 0 <=? k then 10 ^ k * d <=? n else d <=? n * 10 ^ (- k).

Fixpoint climb (fuel : nat) (n d e : Z) : Z :=
  match fuel with
  | O => e
  | S fuel' => if reaches n d (e + 1) then climb fuel' n d (e + 1) else e
  end.

(** The exponent of the last of the 28 digits kept of [n / d]: the search
    starts at an exponent that [n / d] reaches and goes up for as many steps
    as [n / d] can have digits above it. *)
Definition last_digit_exponent (n d : Z) : Z :=
  climb (Z.to_nat (Z.log2 n + Z.log2 d + 2)) n d
    (- (PREC - 1) - (Z.log2 d + 1)).

(** The rounding of the context: the 28-digit coefficient nearest to
    [x / 10 ^ e], put back at exponent [e]. *)
Definition quantize (x : Q) : Q :=
  let n := Z.abs (Qnum x) in
  let d := Z.pos (Qden x) in
  if n =? 0 then x
  else
    let e := last_digit_exponent n d in
    let c := if 0 <=? e then round_half_even n (d * 10 ^ e)
             else round_half_even (n * 10 ^ (- e)) d in
    let v := Z.sgn (Qnum x) * c in
    if 0 <=? e then inject_Z (v * 10 ^ e) else v # Z.to_pos (10 ^ (- e)).

(** [x + y], [x - y] and [x / y] on [Decimal] amounts. *)
Definition dec_add (x y : Q) : Q := quantize (x + y).
Definition dec_sub (x y : Q) : Q := quantize (x - y).
Definition dec_div (x y : Q) : Q := quantize (x / y).

Arguments quantize : simpl never.
Arguments dec_add : simpl never.
Arguments dec_sub : simpl never.
Arguments dec_div : simpl never.

(** Comparisons of [Decimal] amounts (exact in every context). *)
Definition dec_eqb (x y : Q) : bool := Qeq_bool x y.
Definition dec_ltb (x y : Q) : bool := negb (Qle_bool y x).
Definition dec_leb (x y : Q) : bool := Qle_bool x y.

(** ** External objects *)

(** A Discord user: [user.id] and [user.display_name]. *)
Record User : Type := mkUser {
  id : Z;
  display_name : string
}.

(** The command context: [ctx.message.author], and the reading of
    [datetime.now()] at the time of the call. *)
Record Context : Type := mkContext {
  author : User;
  now : Z
}.

(** [bot.config.currency]. *)
Record Currency : Type := mkCurrency {
  symbol : string;
  precision : Z
}.

(** ** PokerPlayer *)

Record PokerPlayer : Type := mkPokerPlayer {
  user_object : User;
  amount : Q;
  amount_in : Q;
  _status : string
}.

Definition PokerPlayer_init (user_object : User) (amount : Q) : PokerPlayer :=
  {| user_object := user_object;
     amount := amount;
     amount_in := 0%Q;
     _status := STATUS_IN |}.

Definition status (p : PokerPlayer) : string := _status p.

Definition set_status (s : string) (p : PokerPlayer) : PokerPlayer :=
  {| user_object := user_object p;
     amount := amount p;
     amount_in := amount_in p;
     _status := s |}.

Definition name (p : PokerPlayer) : string := display_name (user_object p).

Definition discord_id (p : PokerPlayer) : Z := id (user_object p).

Definition move_in (a : Q) (p : PokerPlayer) : PokerPlayer :=
  {| user_object := user_object p;
     amount := dec_sub (amount p) a;
     amount_in := dec_add (amount_in p) a;
     _status := _status p |}.

(** ** PokerGame *)

Record PokerGame : Type := mkPokerGame {
  currency : Currency;
  host : User;
  round : Z;
  round_limit : Z;
  buy_in : Q;
  ongoing_game : bool;
  ongoing_round : bool;
  _time_started : Z;
  _blind : Q;
  _deck : list Card;
  _in_play : list (option Card);
  players : dict PokerPlayer;
  players_order : list Z;
  dealer : Z;
  small_blind : Z;
  big_blind : Z;
  starting_player : Z;
  turn : Z;
  bet : Q;
  pot : Q;
  side_pots : dict Q
}.

Definition PokerGame_init (currency : Currency) (host : User)
    (round_limit : Z) (buy_in : Q) (now : Z) : PokerGame :=
  {| currency := currency;
     host := host;
     round := 1;
     round_limit := round_limit;
     buy_in := buy_in;
     ongoing_game := false;
     ongoing_round := false;
     _time_started := now;
     _blind := dec_div buy_in 100;
     _deck := DECK;
     _in_play := [None; None; None; None; None];
     players := [];
     players_order := [id host];
     dealer := 0;
     small_blind := 1;
     big_blind := 2;
     starting_player := -1;
     turn := -1;
     bet := 0%Q;
     pot := 0%Q;
     side_pots := [] |}.

(** Field assignments ([self.x = v]). *)

Definition set_ongoing_game (v : bool) (g : PokerGame) : PokerGame :=
  mkPokerGame (currency g) (host g) (round g) (round_limit g) (buy_in g)
    v (ongoing_round g) (_time_started g) (_blind g) (_deck g)
    (_in_play g) (players g) (players_order g) (dealer g) (small_blind g)
    (big_blind g) (starting_player g) (turn g) (bet g) (pot g) (side_pots g).

Definition set_ongoing_round (v : bool) (g : PokerGame) : PokerGame :=
  mkPokerGame (currency g) (host g) (round g) (round_limit g) (buy_in g)
    (ongoing_game g) v (_time_started g) (_blind g) (_deck g)
    (_in_play g) (players g) (players_order g) (dealer g) (small_blind g)
    (big_blind g) (starting_player g) (turn g) (bet g) (pot g) (side_pots g).

Definition set_time_started (v : Z) (g : PokerGame) : PokerGame :=
  mkPokerGame (currency g) (host g) (round g) (round_limit g) (buy_in g)
    (ongoing_game g) (ongoing_round g) v (_blind g) (_deck g)
    (_in_play g) (players g) (players_order g) (dealer g) (small_blind g)
    (big_blind g) (starting_player g) (turn g) (bet g) (pot g) (side_pots g).

Definition set_in_play (v : list (option Card)) (g : PokerGame) : PokerGame :=
  mkPokerGame (currency g) (host g) (round g) (round_limit g) (buy_in g)
    (ongoing_game g) (ongoing_round g) (_time_started g) (_blind g) (_deck g)
    v (players g) (players_order g) (dealer g) (small_blind g)
    (big_blind g) (starting_player g) (turn g) (bet g) (pot g) (side_pots g).

Definition set_players (v : dict PokerPlayer) (g : PokerGame) : PokerGame :=
  mkPokerGame (currency g) (host g) (round g) (round_limit g) (buy_in g)
    (ongoing_game g) (ongoing_round g) (_time_started g) (_blind g) (_deck g)
    (_in_play g) v (players_order g) (dealer g) (small_blind g)
    (big_blind g) (starting_player g) (turn g) (bet g) (pot g) (side_pots g).

Definition set_players_order (v : list Z) (g : PokerGame) : PokerGame :=
  mkPokerGame (currency g) (host g) (round g) (round_limit g) (buy_in g)
    (ongoing_game g) (ongoing_round g) (_time_started g) (_blind g) (_deck g)
    (_in_play g) (players g) v (dealer g) (small_blind g)
    (big_blind g) (starting_player g) (turn g) (bet g) (pot g) (side_pots g).

Definition set_turn (v : Z) (g : PokerGame) : PokerGame :=
  mkPokerGame (currency g) (host g) (round g) (round_limit g) (buy_in g)
    (ongoing_game g) (ongoing_round g) (_time_started g) (_blind g) (_deck g)
    (_in_play g) (players g) (players_order g) (dealer g) (small_blind g)
    (big_blind g) (starting_player g) v (bet g) (pot g) (side_pots g).

Definition set_bet (v : Q) (g : PokerGame) : PokerGame :=
  mkPokerGame (currency g) (host g) (round g) (round_limit g) (buy_in g)
    (ongoing_game g) (ongoing_round g) (_time_started g) (_blind g) (_deck g)
    (_in_play g) (players g) (players_order g) (dealer g) (small_blind g)
    (big_blind g) (starting_player g) (turn g) v (pot g) (side_pots g).

(** ** What the engine hands to the channel *)

Inductive Message : Type :=
| CannotJoinMidGame
| AlreadyInGame (who : string)
| HasJoined (who : string)
| CannotStartMidRound
| HostMustStart
| NeedThreePlayers
| GameBoard (dealer_name small_blind_name : string) (sb_amount : Z)
    (big_blind_name : string) (bb_amount : Z) (sym : string)
    (cards : list (option Card)) (turn_name : string) (table_bet : Q)
    (moves : list string)
| Won (who sym : string) (pot_amount : Q)
| IsStatus (who st : string)
| NoGameInProgress
| NotParticipant
| NotYourTurn
| WhyFold
| CannotCheck (cur : Currency) (table_bet : Q)
| MustGoAllIn
| HasFolded (who : string)
| HasChecked (who : string)
| HasCalled (who : string)
| WentAllIn (who : string) (all_in_amount : Q).

Inductive Event : Type :=
| Typing
| Send (m : Message).

(** ** Computations *)

Record World : Type := mkWorld {
  self : PokerGame;
  channel : list Event
}.

Definition M (A : Type) : Type := World -> Outcome A * World.

Definition ret {A : Type} (a : A) : M A := fun w => (Returned a, w).

Definition bind {A B : Type} (m : M A) (k : A -> M B) : M B :=
  fun w =>
    match m w with
    | (Returned a, w') => k a w'
    | (Raised e, w') => (Raised e, w')
    | (Unfinished, w') => (Unfinished, w')
    end.

Notation "x <- m ;; k" := (bind m (fun x => k))
  (at level 61, m at next level, right associativity).
Notation "m ;; k" := (bind m (fun _ => k))
  (at level 61, right associativity).

Definition raise {A : Type} (e : Exception) : M A := fun w => (Raised e, w).

Definition lift {A : Type} (o : Outcome A) : M A := fun w => (o, w).

Definition get : M PokerGame := fun w => (Returned (self w), w).

Definition modify (f : PokerGame -> PokerGame) : M unit :=
  fun w => (Returned tt, {| self := f (self w); channel := channel w |}).

Definition emit (e : Event) : M unit :=
  fun w => (Returned tt, {| self := self w; channel := channel w ++ [e] |}).

(** [await ctx.send(...)] *)
Definition send (m : Message) : M unit := emit (Send m).

(** [await ctx.trigger_typing()] *)
Definition trigger_typing : M unit := emit Typing.

(** The world a call leaves behind, whatever it ended in. *)
Definition after {A : Type} (m : M A) (w : World) : World := snd (m w).

(** ** Properties of PokerGame *)

(** [self.players[k]] *)
Definition players_getitem (k : Z) : M PokerPlayer :=
  g <- get ;;
  match dict_get (players g) k with
  | Some p => ret p
  | None => raise KeyError
  end.

(** [self.players_order[i]] *)
Definition players_order_getitem (i : Z) : M Z :=
  g <- get ;; lift (list_getitem (players_order g) i).

(** Counts the folded among the things [for p in self.players] yields:
    iterating a [dict] yields its keys, and each key is subscripted. *)
Fixpoint count_folded (keys : list Z) : Outcome Z :=
  match keys with
  | [] => Returned 0
  | p :: r =>
      match int_getitem p "status" with
      | Returned s =>
          match count_folded r with
          | Returned n =>
              Returned (if String.eqb s STATUS_FOLDED then n + 1 else n)
          | other => other
          end
      | Raised e => Raised e
      | Unfinished => Unfinished
      end
  end.

Definition num_folded : M Z :=
  g <- get ;; lift (count_folded (dict_keys (players g))).

(** The number of [None] slots: [len([c for c in self._in_play if c is None])]. *)
Definition count_none (slots : list (option Card)) : Z :=
  Z.of_nat (List.length
    (filter (fun c => match c with None => true | Some _ => false end) slots)).

Definition stage : M Z :=
  g <- get ;; lift (list_index (count_none (_in_play g)) ROUND_STAGES).

(** The key under which the player whose turn it is is stored. *)
Definition turn_key : M Z :=
  g <- get ;;
  i <- lift (int_mod (turn g) (Z.of_nat (List.length (players_order g)))) ;;
  players_order_getitem i.

Definition _turn_player : M PokerPlayer :=
  k <- turn_key ;; players_getitem k.

Definition _dealer_player : M PokerPlayer :=
  g <- get ;; k <- players_order_getitem (dealer g) ;; players_getitem k.

Definition _small_blind_player : M PokerPlayer :=
  g <- get ;; k <- players_order_getitem (small_blind g) ;; players_getitem k.

Definition _big_blind_player : M PokerPlayer :=
  g <- get ;; k <- players_order_getitem (big_blind g) ;; players_getitem k.

(** A method call or attribute assignment on the object a property returned
    mutates the object stored in [self.players]. *)
Definition mutate (k : Z) (f : PokerPlayer -> PokerPlayer) : M unit :=
  modify (fun g => set_players (dict_update (players g) k f) g).

Definition _turn_player_do (f : PokerPlayer -> PokerPlayer) : M unit :=
  k <- turn_key ;; _ <- players_getitem k ;; mutate k f.

Definition _small_blind_player_do (f : PokerPlayer -> PokerPlayer) : M unit :=
  g <- get ;; k <- players_order_getitem (small_blind g) ;;
  _ <- players_getitem k ;; mutate k f.

Definition _big_blind_player_do (f : PokerPlayer -> PokerPlayer) : M unit :=
  g <- get ;; k <- players_order_getitem (big_blind g) ;;
  _ <- players_getitem k ;; mutate k f.

(** The first thing [for player in self.players] yields whose
    [get_status()] is not folded; the loop variable is a key. *)
Fixpoint first_not_folded (keys : list Z) : Outcome (option Z) :=
  match keys with
  | [] => Returned None
  | player :: r =>
      match int_getattr (A := string) player "get_status" with
      | Returned s =>
          if negb (String.eqb s STATUS_FOLDED) then Returned (Some player)
          else first_not_folded r
      | Raised e => Raised e
      | Unfinished => Unfinished
      end
  end.

Definition _get_fold_winner : M (option Z) :=
  n <- num_folded ;;
  g <- get ;;
  if n <? Z.of_nat (List.length (players_order g)) - 1 then ret None
  else lift (first_not_folded (dict_keys (players g))).

(** ** Methods of PokerGame *)

Definition _print_game_screen (ctx : Context) : M unit :=
  g <- get ;;
  let moves :=
    if dec_eqb (bet g) 0 then [MOVE_CHECK; MOVE_RAISE]
    else [MOVE_FOLD; MOVE_CALL; MOVE_RAISE] in
  d <- _dealer_player ;;
  sb <- _small_blind_player ;;
  bb <- _big_blind_player ;;
  t <- _turn_player ;;
  send (GameBoard (name d) (name sb) (small_blind g) (name bb) (big_blind g)
          (symbol (currency g)) (_in_play g) (name t) (bet g) moves).

Definition join (ctx : Context) : M unit :=
  trigger_typing ;;
  g <- get ;;
  if ongoing_game g then send CannotJoinMidGame
  else
    let player := author ctx in
    if dict_contains (players g) (id player) then
      send (AlreadyInGame (display_name player))
    else
      modify (fun g =>
        set_players
          (dict_set (players g) (id player) (PokerPlayer_init player (buy_in g)))
          g) ;;
      modify (fun g => set_players_order (players_order g ++ [id player]) g) ;;
      p <- players_getitem (id player) ;;
      send (HasJoined (name p)).

(** Lines 224-233 of [start]: the timeout is bumped, the blinds are posted,
    the bet and the turn are set and the board is printed. *)
Definition post_blinds (ctx : Context) : M unit :=
  modify (set_time_started (now ctx)) ;;
  g <- get ;;
  _small_blind_player_do (move_in (dec_div (_blind g) 2)) ;;
  _big_blind_player_do (move_in (_blind g)) ;;
  modify (fun g => set_bet (_blind g) g) ;;
  g <- get ;;
  t <- lift (int_mod (big_blind g + 1)
               (Z.of_nat (List.length (players_order g)))) ;;
  modify (set_turn t) ;;
  _print_game_screen ctx.

Definition start (ctx : Context) : M unit :=
  g <- get ;;
  if ongoing_round g then send CannotStartMidRound
  else if negb (id (author ctx) =? id (host g)) then send HostMustStart
  else
    (if Z.of_nat (List.length (players_order g)) <? 3
     then send NeedThreePlayers else ret tt) ;;
    modify (set_ongoing_game true) ;;
    modify (set_ongoing_round true) ;;
    post_blinds ctx.

(** The [while] loop of [_advance_turn]; [fuel] bounds its iterations. *)
Fixpoint skip_waiting (fuel : nat) : M unit :=
  p <- _turn_player ;;
  if String.eqb (status p) STATUS_FOLDED || String.eqb (status p) STATUS_ALL_IN
  then
    match fuel with
    | O => lift Unfinished
    | S fuel' =>
        p1 <- _turn_player ;;
        p2 <- _turn_player ;;
        send (IsStatus (name p1) (status p2)) ;;
        modify (fun g => set_turn (turn g + 1) g) ;;
        skip_waiting fuel'
    end
  else ret tt.

Definition _advance_turn (fuel : nat) (ctx : Context) : M unit :=
  winner <- _get_fold_winner ;;
  match winner with
  | Some _ =>
      again <- _get_fold_winner ;;
      who <- match again with
             | Some k => lift (int_getattr k "name")
             | None => raise AttributeError
             end ;;
      g <- get ;;
      send (Won who (symbol (currency g)) (pot g))
  | None =>
      modify (fun g => set_turn (turn g + 1) g) ;;
      skip_waiting fuel ;;
      _print_game_screen ctx
  end.

(** [self.game] inside [PokerGame]: the class sets no attribute of that
    name (only the cog [Poker] has one), so the read raises. *)
Definition self_game : M (option unit) := raise AttributeError.

(** The text of the raise announcement (line 306).  Its last replacement
    field is [{:2.f}], a format specification [str.format] refuses. *)
Definition format_raise_announcement (who : string) (table_bet amt total : Q)
  : Outcome string := Raised ValueError.

(** Lines 305-311: the arguments are evaluated, then formatted. *)
Definition announce_raise (amt : option Q) : M unit :=
  p <- _turn_player ;;
  g <- get ;;
  match amt with
  | None => raise TypeError
  | Some a =>
      _ <- lift (format_raise_announcement (name p) (bet g) a
                   (dec_add (bet g) a)) ;;
      ret tt
  end.

(** Lines 313-314: [self.bet = self.bet + amount] and
    [self._turn_player.move_in(self.bet)]. *)
Definition raise_bet (amt : option Q) : M unit :=
  g <- get ;;
  match amt with
  | None => raise TypeError
  | Some a =>
      modify (set_bet (dec_add (bet g) a)) ;;
      g <- get ;;
      _turn_player_do (move_in (bet g))
  end.

(** Lines 316-326. *)
Definition go_all_in : M unit :=
  p <- _turn_player ;;
  let all_in_amount := amount p in
  p' <- _turn_player ;;
  send (WentAllIn (name p') all_in_amount) ;;
  _turn_player_do (move_in all_in_amount) ;;
  _turn_player_do (set_status STATUS_ALL_IN).

(** Lines 293-326: the effect of a move that passed every guard. *)
Definition perform (move : string) (amt : option Q) : M unit :=
  if String.eqb move MOVE_FOLD then
    _turn_player_do (set_status STATUS_FOLDED) ;;
    p <- _turn_player ;;
    send (HasFolded (name p))
  else if String.eqb move MOVE_CHECK then
    p <- _turn_player ;;
    send (HasChecked (name p))
  else if String.eqb move MOVE_CALL then
    g <- get ;;
    _turn_player_do (move_in (bet g)) ;;
    p <- _turn_player ;;
    send (HasCalled (name p))
  else if String.eqb move MOVE_RAISE then
    announce_raise amt ;;
    raise_bet amt
  else if String.eqb move MOVE_ALL_IN then
    go_all_in
  else ret tt.

(** Lines 264-328 of [try_move]: everything below the session guard. *)
Definition try_move_body (fuel : nat) (ctx : Context) (move : string)
    (amt : option Q) : M unit :=
  g <- get ;;
  if negb (existsb (Z.eqb (id (author ctx))) (players_order g)) then
    send NotParticipant
  else
    tp <- _turn_player ;;
    if negb (id (author ctx) =? discord_id tp) then send NotYourTurn
    else if dec_eqb (bet g) 0 && String.eqb move MOVE_FOLD then send WhyFold
    else
      let move :=
        if dec_eqb (bet g) 0 && String.eqb move MOVE_CALL
        then MOVE_CHECK else move in
      if dec_ltb 0 (bet g) && String.eqb move MOVE_CHECK then
        send (CannotCheck (currency g) (bet g))
      else
        tp <- _turn_player ;;
        if dec_leb (dec_add (amount tp) (amount_in tp)) (bet g)
           && (String.eqb move MOVE_CALL || String.eqb move MOVE_RAISE)
        then send MustGoAllIn
        else
          perform move amt ;;
          _advance_turn fuel ctx.

Definition try_move (fuel : nat) (ctx : Context) (move : string)
    (amt : option Q) : M unit :=
  game <- self_game ;;
  match game with
  | None => send NoGameInProgress
  | Some _ => try_move_body fuel ctx move amt
  end.

(** ** Sequences of calls *)

(** A call on the engine.  [BelowGuard] enters [try_move] at line 264, below
    the read of [self.game] that stops every [TryMove]. *)
Inductive Call : Type :=
| Join (ctx : Context)
| Start (ctx : Context)
| TryMove (ctx : Context) (move : string) (amt : option Q)
| BelowGuard (ctx : Context) (move : string) (amt : option Q).

Definition run_call (fuel : nat) (c : Call) (w : World) : World :=
  match c with
  | Join ctx => after (join ctx) w
  | Start ctx => after (start ctx) w
  | TryMove ctx move amt => after (try_move fuel ctx move amt) w
  | BelowGuard ctx move amt => after (try_move_body fuel ctx move amt) w
  end.

Definition run_calls (fuel : nat) (cs : list Call) (w : World) : World :=
  fold_left (fun w c => run_call fuel c w) cs w.

(** A session right after [PokerGame(currency, host, round_limit, buy_in)]. *)
Definition new_session (cur : Currency) (h : User) (round_limit : Z)
    (buy : Q) (t0 : Z) : World :=
  {| self := PokerGame_init cur h round_limit buy t0; channel := [] |}.




(** * Frame reasoning

    A relation between the game before and after a computation that is
    reflexive, transitive and kept by each elementary assignment made during
    a round is kept by every method that runs during a round, whatever the
    method ends in.  ([start] also sets the two lifecycle flags; a relation
    is kept by [start] when it is kept by those assignments too.) *)

Class RoundFrame (R : PokerGame -> PokerGame -> Prop) : Prop := {
  frame_refl : forall g, R g g;
  frame_trans : forall g1 g2 g3, R g1 g2 -> R g2 g3 -> R g1 g3;
  frame_time_started : forall v g, R g (set_time_started v g);
  frame_turn : forall v g, R g (set_turn v g);
  frame_bet : forall v g, R g (set_bet v g);
  frame_player : forall k f g,
    R g (set_players (dict_update (players g) k f) g)
}.

Definition preserves (R : PokerGame -> PokerGame -> Prop) {A : Type}
    (m : M A) : Prop :=
  forall w, R (self w) (self (snd (m w))).

(** Relations kept during a round. *)

Definition same_pot (g g' : PokerGame) : Prop := pot g' = pot g.

Definition same_seats (g g' : PokerGame) : Prop :=
  players_order g' = players_order g
  /\ dict_keys (players g') = dict_keys (players g)
  /\ host g' = host g.

Definition same_flags (g g' : PokerGame) : Prop :=
  ongoing_game g' = ongoing_game g /\ ongoing_round g' = ongoing_round g.

(** Calls made once the players are seated: everything but [join]. *)
Definition in_round (c : Call) : Prop :=
  match c with
  | Join _ => False
  | _ => True
  end.

(** A call that only answers with message [m] and returns. *)
Definition rejection (m : Message) (w : World) : Outcome unit * World :=
  (Returned tt, {| self := self w; channel := channel w ++ [Send m] |}).

(** The seating order is the host's id followed by the keys of [players]
    in the order they joined. *)
Definition host_leads_seating (g : PokerGame) : Prop :=
  players_order g = id (host g) :: dict_keys (players g).

(** Every identity in [players_order] has a record in [players]. *)
Definition every_seat_has_record (g : PokerGame) : Prop :=
  forall k, In k (players_order g) -> dict_contains (players g) k = true.

(** Whose turn it is, read off the game alone. *)
Definition turn_player_of (g : PokerGame) : Outcome PokerPlayer :=
  fst (_turn_player {| self := g; channel := [] |}).

(** A computation that ends in an exception or not at all. *)
Definition never_returns {A : Type} (m : M A) : Prop :=
  forall w a, fst (m w) <> Returned a.

(** ** Sessions used as concrete inputs *)

Definition dollars : Currency := {| symbol := "$"; precision := 2 |}.

Definition hal : User := {| id := 1; display_name := "hal" |}.
Definition ann : User := {| id := 2; display_name := "ann" |}.
Definition bob : User := {| id := 3; display_name := "bob" |}.
Definition cy : User := {| id := 4; display_name := "cy" |}.

Definition by_ (u : User) : Context := {| author := u; now := 7 |}.

(** [PokerGame(dollars, hal, 3, Decimal(20))]: the blind is 0.20. *)
Definition fresh : World := new_session dollars hal 3 20 0.

(** hal opens, hal and ann join, hal starts: seats [hal; hal; ann]; hal
    posts the small blind, ann the big blind, and it is hal's turn. *)
Definition host_small_blind : World :=
  run_calls 0 [Join (by_ hal); Join (by_ ann); Start (by_ hal)] fresh.

(** hal opens, ann and hal join, hal starts: seats [hal; ann; hal]; ann
    posts the small blind, hal the big blind, and it is hal's turn. *)
Definition host_big_blind : World :=
  run_calls 0 [Join (by_ ann); Join (by_ hal); Start (by_ hal)] fresh.

(** hal opens and only ann joins. *)
Definition one_joined : World := run_calls 0 [Join (by_ ann)] fresh.

(** hal opens, ann and bob join (hal does not). *)
Definition two_joined : World :=
  run_calls 0 [Join (by_ ann); Join (by_ bob)] fresh.

(** hal and ann are seated; then the round is started and hal acts. *)
Definition seated_pair : World :=
  run_calls 0 [Join (by_ hal); Join (by_ ann)] fresh.

Definition a_round : list Call :=
  [Start (by_ hal);
   BelowGuard (by_ hal) MOVE_CALL None;
   TryMove (by_ hal) MOVE_RAISE (Some 1%Q);
   BelowGuard (by_ hal) MOVE_ALL_IN None].

(** Four players (hal, ann, bob, cy) in a started round, of whom hal, ann
    and bob have folded. *)
Definition three_of_four_folded : World :=
  let w :=
    run_calls 0
      [Join (by_ hal); Join (by_ ann); Join (by_ bob); Join (by_ cy);
       Start (by_ hal)] fresh in
  let fold k d := dict_update d k (set_status STATUS_FOLDED) in
  {| self := set_players (fold 3 (fold 2 (fold 1 (players (self w))))) (self w);
     channel := channel w |}.

(** Boards with the flop and with all five cards dealt. *)
Definition flop_dealt : World :=
  {| self :=
       set_in_play
         [Some ("H", "2"); Some ("S", "K"); Some ("D", "10"); None; None]%string
         (self fresh);
     channel := [] |}.

Definition river_dealt : World :=
  {| self :=
       set_in_play
         [Some ("H", "2"); Some ("S", "K"); Some ("D", "10");
          Some ("C", "A"); Some ("H", "J")]%string
         (self fresh);
     channel := [] |}.

(** hal's record in [host_big_blind] and in [host_small_blind]. *)
Definition hal_big_blind : PokerPlayer :=
  Eval vm_compute in
    match dict_get (players (self host_big_blind)) 1 with
    | Some p => p
    | None => PokerPlayer_init hal 0
    end.

Definition hal_small_blind : PokerPlayer :=
  Eval vm_compute in
    match dict_get (players (self host_small_blind)) 1 with
    | Some p => p
    | None => PokerPlayer_init hal 0
    end.

(** The record stored under key [k], for stating what a call did to it. *)
Definition record_of (w : World) (k : Z) : option PokerPlayer :=
  dict_get (players (self w)) k.

Definition committed_of (w : World) (k : Z) : Q :=
  match record_of w k with Some p => amount_in p | None => 0 end.

Definition stack_of (w : World) (k : Z) : Q :=
  match record_of w k with Some p => amount p | None => 0 end.

(** ** Further relations and predicates *)

(** Everything but the players' records is as before. *)
Definition only_records (g g' : PokerGame) : Prop :=
  set_players (players g') g = g'.

(** The keys of a dictionary of records with the user stored under each. *)
Definition identities (d : dict PokerPlayer) : list (Z * User) :=
  map (fun kv => (fst kv, user_object (snd kv))) d.

Definition same_identities (g g' : PokerGame) : Prop :=
  identities (players g') = identities (players g).

(** Each record is stored under the id of its own user. *)
Definition stored_under_own_id (d : dict PokerPlayer) : Prop :=
  Forall (fun kv => discord_id (snd kv) = fst kv) d.

Definition same_cards (g g' : PokerGame) : Prop :=
  _deck g' = _deck g /\ _in_play g' = _in_play g.

(** The messages with which [try_move] turns a move down. *)
Definition refusal (m : Message) : bool :=
  match m with
  | NotParticipant | NotYourTurn | WhyFold | CannotCheck _ _ | MustGoAllIn =>
      true
  | _ => false
  end.

Definition is_try_move (c : Call) : bool :=
  match c with
  | TryMove _ _ _ => true
  | _ => false
  end.

(** The statuses the loop of [_advance_turn] skips. *)
Definition waiting (p : PokerPlayer) : bool :=
  String.eqb (status p) STATUS_FOLDED || String.eqb (status p) STATUS_ALL_IN.

(** The number of slots of the board that hold a card. *)
Definition count_dealt (slots : list (option Card)) : Z :=
  Z.of_nat (List.length
    (filter (fun c => match c with None => false | Some _ => true end) slots)).

(** A relation kept by the two mutations a move makes on a record. *)
Class RecordFrame (R : PokerGame -> PokerGame -> Prop) : Prop := {
  record_refl : forall g, R g g;
  record_trans : forall g1 g2 g3, R g1 g2 -> R g2 g3 -> R g1 g3;
  record_move_in : forall k a g,
    R g (set_players (dict_update (players g) k (move_in a)) g);
  record_status : forall k s g,
    R g (set_players (dict_update (players g) k (set_status s)) g)
}.

Definition card_eqb (c d : Card) : bool :=
  String.eqb (fst c) (fst d) && String.eqb (snd c) (snd d).

(** No card occurs twice in [l]. *)
Fixpoint distinct (l : list Card) : bool :=
  match l with
  | [] => true
  | c :: r => negb (existsb (card_eqb c) r) && distinct r
  end.

(** The move [try_move] goes on with after line 277: a call at a bet of 0 is
    a check. *)
Definition effective_move (g : PokerGame) (move : string) : string :=
  if dec_eqb (bet g) 0 && String.eqb move MOVE_CALL then MOVE_CHECK else move.

(** The key of the seat whose turn it is, read off the game alone. *)
Definition turn_key_of (g : PokerGame) : Outcome Z :=
  fst (turn_key {| self := g; channel := [] |}).

(** [post_blinds] after its first statement: the blinds are posted, the bet
    and the turn are set and the board is printed. *)
Definition blinds_and_board (ctx : Context) : M unit :=
  g <- get ;;
  _small_blind_player_do (move_in (dec_div (_blind g) 2)) ;;
  _big_blind_player_do (move_in (_blind g)) ;;
  modify (fun g => set_bet (_blind g) g) ;;
  g <- get ;;
  t <- lift (int_mod (big_blind g + 1)
               (Z.of_nat (List.length (players_order g)))) ;;
  modify (set_turn t) ;;
  _print_game_screen ctx.

Definition same_time (g g' : PokerGame) : Prop :=
  _time_started g' = _time_started g.

(** ** Cancelling *)

(** Datetimes count microseconds; [timedelta(minutes=m)]. *)
Definition timedelta_minutes (m : Z) : Z := m * 60000000.

Inductive CancelMessage : Type :=
| CancelledByTimeout
| MustBeHostToCancel.

(** What [attempt_cancel] ends in: a returned boolean, or the [NameError]
    of a name that is bound nowhere. *)
Inductive CancelOutcome : Type :=
| CancelReturned (b : bool)
| CancelNameError (unbound : string).

(** Looking up a bare name inside a method of [PokerGame]: the module binds
    the constants, the classes and what it imports, and no [host]. *)
Definition global_name (n : string) : option User := None.

(** [attempt_cancel]: the outcome and the messages sent; the game is only
    read. *)
Definition attempt_cancel (ctx : Context) (g : PokerGame)
  : CancelOutcome * list CancelMessage :=
  if _time_started g <? now ctx - timedelta_minutes TIMEOUT_MINUTES then
    (CancelReturned true, [CancelledByTimeout])
  else
    match global_name "host" with
    | None => (CancelNameError "host", [])
    | Some host =>
        if negb (id (author ctx) =? id host)
        then (CancelReturned false, [MustBeHostToCancel])
        else (CancelReturned true, [])
    end.

(** [host_big_blind] with ann folded and hal all-in. *)
Definition everyone_waiting : World :=
  {| self :=
       set_players
         (dict_update
            (dict_update (players (self host_big_blind)) 2
               (set_status STATUS_FOLDED))
            1 (set_status STATUS_ALL_IN))
         (self host_big_blind);
     channel := channel host_big_blind |}.

(** The game a [start] that found both blind seats leaves behind: flags
    set, timeout bumped, blinds posted by the records under [k1] and [k2],
    the bet at the blind and the turn on the seat after the big blind. *)
Definition started (ctx : Context) (g : PokerGame) (k1 k2 : Z) : PokerGame :=
  set_turn ((big_blind g + 1) mod Z.of_nat (List.length (players_order g)))
    (set_bet (_blind g)
       (set_players
          (dict_update
             (dict_update (players g) k1 (move_in (dec_div (_blind g) 2)))
             k2 (move_in (_blind g)))
          (set_time_started (now ctx)
             (set_ongoing_round true (set_ongoing_game true g))))).

(** ** Amounts within the precision of the context *)











(** ** What a computation hands to the channel *)

Definition sent_by {A : Type} (m : M A) (w : World) : list Event :=
  skipn (List.length (channel w)) (channel (snd (m w))).

(** [m] only appends to the channel, and only events that satisfy [P]. *)
Definition says_only (P : Event -> Prop) {A : Type} (m : M A) : Prop :=
  forall w,
    exists evs, channel (snd (m w)) = channel w ++ evs /\ Forall P evs.

(** Any event but the complaint about too few players. *)
Definition no_complaint (e : Event) : Prop := e <> Send NeedThreePlayers.

(** The buy-in is what it was. *)
Definition same_buy_in (g g' : PokerGame) : Prop := buy_in g' = buy_in g.


(** * Properties *)

Section Frames.

Context (R : PokerGame -> PokerGame -> Prop) `{RoundFrame R}.

Lemma preserves_ret {A : Type} (a : A) : preserves R (ret a).
Proof. intro w. apply frame_refl. Qed.

Lemma preserves_raise {A : Type} (e : Exception) :
  preserves R (raise (A := A) e).
Proof. intro w. apply frame_refl. Qed.

Lemma preserves_lift {A : Type} (o : Outcome A) : preserves R (lift o).
Proof. intro w. apply frame_refl. Qed.

Lemma preserves_get : preserves R get.
Proof. intro w. apply frame_refl. Qed.

Lemma preserves_emit (e : Event) : preserves R (emit e).
Proof. intro w. apply frame_refl. Qed.

Lemma preserves_modify (f : PokerGame -> PokerGame) :
  (forall g, R g (f g)) -> preserves R (modify f).
Proof. intros Hf w. apply Hf. Qed.

Lemma preserves_mutate (k : Z) (f : PokerPlayer -> PokerPlayer) :
  preserves R (mutate k f).
Proof. intro w. simpl. apply frame_player. Qed.

Lemma preserves_bind {A B : Type} (m : M A) (k : A -> M B) :
  preserves R m -> (forall a, preserves R (k a)) -> preserves R (bind m k).
Proof.
  intros Hm Hk w. unfold bind.
  specialize (Hm w).
  destruct (m w) as [[a | e | ] w']; simpl in *; trivial.
  eapply frame_trans; [exact Hm | apply Hk].
Qed.

Ltac frame_walk :=
  cbv beta zeta;
  repeat first
    [ assumption
    | match goal with
      | Hm : forall x, preserves _ _ |- preserves _ _ => apply Hm
      end
    | apply preserves_ret
    | apply preserves_raise
    | apply preserves_lift
    | apply preserves_get
    | apply preserves_emit
    | apply preserves_mutate
    | apply preserves_modify; intro;
      solve [ apply frame_time_started | apply frame_turn | apply frame_bet
            | auto ]
    | apply preserves_bind; [ | intro ]
    | match goal with
      | |- preserves _ (if ?b then _ else _) => destruct b
      | |- preserves _ (match ?x with _ => _ end) => destruct x
      end ].

Lemma turn_key_preserves : preserves R turn_key.
Proof. unfold turn_key, players_order_getitem. frame_walk. Qed.

Lemma _turn_player_preserves : preserves R _turn_player.
Proof.
  unfold _turn_player, players_getitem.
  pose proof turn_key_preserves. frame_walk.
Qed.

Lemma _turn_player_do_preserves (f : PokerPlayer -> PokerPlayer) :
  preserves R (_turn_player_do f).
Proof.
  unfold _turn_player_do, players_getitem.
  apply preserves_bind; [apply turn_key_preserves | intro k].
  apply preserves_bind; [frame_walk | intros _].
  apply preserves_mutate.
Qed.

Lemma _print_game_screen_preserves (ctx : Context) :
  preserves R (_print_game_screen ctx).
Proof.
  pose proof _turn_player_preserves.
  unfold _print_game_screen, _dealer_player, _small_blind_player,
    _big_blind_player, players_order_getitem, players_getitem, send.
  frame_walk.
Qed.

Lemma post_blinds_preserves (ctx : Context) : preserves R (post_blinds ctx).
Proof.
  pose proof (_print_game_screen_preserves ctx).
  unfold post_blinds, _small_blind_player_do, _big_blind_player_do,
    players_order_getitem, players_getitem.
  frame_walk.
Qed.

Lemma start_preserves (ctx : Context) :
  (forall v g, R g (set_ongoing_game v g)) ->
  (forall v g, R g (set_ongoing_round v g)) ->
  preserves R (start ctx).
Proof.
  intros Hgame Hround.
  pose proof (post_blinds_preserves ctx).
  unfold start, send.
  frame_walk.
Qed.

Lemma skip_waiting_preserves (fuel : nat) : preserves R (skip_waiting fuel).
Proof.
  pose proof _turn_player_preserves.
  induction fuel as [ | fuel IH]; simpl; unfold send; frame_walk.
Qed.

Lemma _get_fold_winner_preserves : preserves R _get_fold_winner.
Proof. unfold _get_fold_winner, num_folded. frame_walk. Qed.

Lemma _advance_turn_preserves (fuel : nat) (ctx : Context) :
  preserves R (_advance_turn fuel ctx).
Proof.
  pose proof _get_fold_winner_preserves.
  pose proof (skip_waiting_preserves fuel).
  pose proof (_print_game_screen_preserves ctx).
  unfold _advance_turn, send. frame_walk.
Qed.

Lemma raise_bet_preserves (amt : option Q) : preserves R (raise_bet amt).
Proof.
  pose proof _turn_player_do_preserves.
  unfold raise_bet. frame_walk.
Qed.

Lemma perform_preserves (move : string) (amt : option Q) :
  preserves R (perform move amt).
Proof.
  pose proof _turn_player_preserves.
  pose proof _turn_player_do_preserves.
  pose proof (raise_bet_preserves amt).
  unfold perform, go_all_in, announce_raise, send. frame_walk.
Qed.

Lemma try_move_body_preserves (fuel : nat) (ctx : Context) (move : string)
    (amt : option Q) :
  preserves R (try_move_body fuel ctx move amt).
Proof.
  pose proof _turn_player_preserves.
  pose proof (_advance_turn_preserves fuel ctx).
  pose proof (fun mv => perform_preserves mv amt).
  unfold try_move_body, send. frame_walk.
Qed.

Lemma try_move_preserves (fuel : nat) (ctx : Context) (move : string)
    (amt : option Q) :
  preserves R (try_move fuel ctx move amt).
Proof.
  pose proof (try_move_body_preserves fuel ctx move amt).
  unfold try_move, self_game, send. frame_walk.
Qed.

End Frames.

(** ** Dictionaries *)

Lemma dict_keys_update {V : Type} (d : dict V) (k : Z) (f : V -> V) :
  dict_keys (dict_update d k f) = dict_keys d.
Proof.
  induction d as [ | [k' v] r IH]; simpl; trivial.
  destruct (k' =? k); simpl; [reflexivity | now rewrite IH].
Qed.

Lemma dict_keys_set_new {V : Type} (d : dict V) (k : Z) (v : V) :
  dict_contains d k = false -> dict_keys (dict_set d k v) = dict_keys d ++ [k].
Proof.
  unfold dict_contains.
  induction d as [ | [k' v'] r IH]; simpl; trivial.
  destruct (k' =? k); [discriminate | ].
  intro Hr. simpl. now rewrite IH.
Qed.

Lemma dict_contains_keys {V : Type} (d : dict V) (k : Z) :
  dict_contains d k = true <-> In k (dict_keys d).
Proof.
  unfold dict_contains.
  induction d as [ | [k' v] r IH]; simpl.
  - split; [discriminate | tauto].
  - destruct (Z.eqb_spec k' k) as [-> | Hne].
    + split; auto.
    + rewrite IH. split; [auto | intros [Heq | Hin]; [contradiction | trivial]].
Qed.

Lemma dict_get_update_same {V : Type} (d : dict V) (k : Z) (f : V -> V)
    (v : V) :
  dict_get d k = Some v -> dict_get (dict_update d k f) k = Some (f v).
Proof.
  induction d as [ | [k' v'] r IH]; simpl; [discriminate | ].
  destruct (Z.eqb_spec k' k) as [-> | Hne]; simpl.
  - rewrite Z.eqb_refl. now intros [= ->].
  - destruct (Z.eqb_spec k' k); [contradiction | exact IH].
Qed.

(** ** Relations kept during a round *)

#[export] Instance same_pot_frame : RoundFrame same_pot.
Proof. split; unfold same_pot; intros; simpl; congruence. Qed.

#[export] Instance same_seats_frame : RoundFrame same_seats.
Proof.
  split; unfold same_seats; intros; simpl;
    try rewrite dict_keys_update; intuition congruence.
Qed.

#[export] Instance same_flags_frame : RoundFrame same_flags.
Proof. split; unfold same_flags; intros; simpl; intuition congruence. Qed.

Lemma in_round_call_preserves (R : PokerGame -> PokerGame -> Prop)
    `{RoundFrame R} (fuel : nat) (c : Call) (w : World) :
  (forall v g, R g (set_ongoing_game v g)) ->
  (forall v g, R g (set_ongoing_round v g)) ->
  in_round c -> R (self w) (self (run_call fuel c w)).
Proof.
  intros Hgame Hround.
  destruct c as [ctx | ctx | ctx mv amt | ctx mv amt]; simpl; intro Hc.
  - contradiction.
  - now apply (start_preserves R).
  - apply (try_move_preserves R).
  - apply (try_move_body_preserves R).
Qed.

Lemma in_round_calls_preserve (R : PokerGame -> PokerGame -> Prop)
    `{RoundFrame R} (fuel : nat) (cs : list Call) (w : World) :
  (forall v g, R g (set_ongoing_game v g)) ->
  (forall v g, R g (set_ongoing_round v g)) ->
  Forall in_round cs -> R (self w) (self (run_calls fuel cs w)).
Proof.
  intros Hgame Hround. unfold run_calls. revert w.
  induction cs as [ | c cs IH]; intros w Hcs; simpl.
  - apply frame_refl.
  - inversion Hcs as [ | ? ? Hc Hrest]; subst.
    eapply frame_trans; [ | apply IH; exact Hrest].
    now apply in_round_call_preserves.
Qed.

(** ** What [join] keeps and changes *)

(** Settles a conjunction of closed facts by evaluation. *)
Ltac evaluate :=
  cbv zeta; repeat apply conj; vm_compute; reflexivity.

(** Unfolds the plumbing of a computation applied to a world. *)
Ltac run :=
  repeat (unfold after, bind, get, modify, send, trigger_typing, emit, ret,
            raise, lift, players_getitem, players_order_getitem in *;
          simpl in * ).

Lemma join_same_pot (ctx : Context) (w : World) :
  pot (self (after (join ctx) w)) = pot (self w).
Proof.
  unfold join. run.
  destruct (ongoing_game (self w)); run; trivial.
  destruct (dict_contains (players (self w)) (id (author ctx))); run; trivial.
  match goal with
  | |- context [dict_get ?d ?k] => destruct (dict_get d k)
  end; reflexivity.
Qed.

Lemma join_host_leads_seating (ctx : Context) (w : World) :
  host_leads_seating (self w) ->
  host_leads_seating (self (after (join ctx) w)).
Proof.
  unfold host_leads_seating, join. intro Hw. run.
  destruct (ongoing_game (self w)); run; trivial.
  destruct (dict_contains (players (self w)) (id (author ctx))) eqn:Hin;
    run; trivial.
  assert (Hgoal :
    players_order (self w) ++ [id (author ctx)]
    = id (host (self w))
      :: dict_keys (dict_set (players (self w)) (id (author ctx))
                      (PokerPlayer_init (author ctx) (buy_in (self w))))).
  { rewrite dict_keys_set_new by exact Hin. now rewrite Hw. }
  match goal with
  | |- context [dict_get ?d ?k] => destruct (dict_get d k)
  end; simpl; exact Hgoal.
Qed.

Lemma same_seats_host_leads (g g' : PokerGame) :
  same_seats g g' -> host_leads_seating g -> host_leads_seating g'.
Proof.
  unfold same_seats, host_leads_seating. intros (Ho & Hk & Hh) Hg.
  now rewrite Ho, Hk, Hh.
Qed.

Lemma run_call_same_pot (fuel : nat) (c : Call) (w : World) :
  pot (self (run_call fuel c w)) = pot (self w).
Proof.
  destruct c as [ctx | ctx | ctx mv amt | ctx mv amt].
  - apply join_same_pot.
  - now apply (in_round_call_preserves same_pot).
  - now apply (in_round_call_preserves same_pot).
  - now apply (in_round_call_preserves same_pot).
Qed.

Lemma run_call_host_leads_seating (fuel : nat) (c : Call) (w : World) :
  host_leads_seating (self w) ->
  host_leads_seating (self (run_call fuel c w)).
Proof.
  destruct c as [ctx | ctx | ctx mv amt | ctx mv amt]; intro Hw.
  - now apply join_host_leads_seating.
  - eapply same_seats_host_leads; [ | exact Hw].
    now apply (in_round_call_preserves same_seats).
  - eapply same_seats_host_leads; [ | exact Hw].
    now apply (in_round_call_preserves same_seats).
  - eapply same_seats_host_leads; [ | exact Hw].
    now apply (in_round_call_preserves same_seats).
Qed.

Lemma run_calls_invariant (P : PokerGame -> Prop) (fuel : nat) :
  (forall c w, P (self w) -> P (self (run_call fuel c w))) ->
  forall cs w, P (self w) -> P (self (run_calls fuel cs w)).
Proof.
  intros Hstep cs. unfold run_calls.
  induction cs as [ | c cs IH]; intros w Hw; simpl; auto.
Qed.

(** ** Reading whose turn it is *)

Lemma _turn_player_reads (w : World) :
  _turn_player w = (turn_player_of (self w), w).
Proof.
  unfold turn_player_of, _turn_player, turn_key. run.
  destruct (int_mod _ _) as [i | e | ]; run; trivial.
  destruct (list_getitem _ _) as [k | e | ]; run; trivial.
  destruct (dict_get _ _); trivial.
Qed.

Lemma _turn_player_found (w w' : World) (p : PokerPlayer) :
  _turn_player w = (Returned p, w') -> players (self w) <> [].
Proof.
  unfold _turn_player, turn_key. run.
  destruct (int_mod _ _) as [i | e | ]; run; try discriminate.
  destruct (list_getitem _ _) as [k | e | ]; run; try discriminate.
  destruct (players (self w)); simpl; [discriminate | intros _; discriminate].
Qed.

Lemma _turn_player_do_effect (f : PokerPlayer -> PokerPlayer) (w : World)
    (p : PokerPlayer) :
  _turn_player w = (Returned p, w) ->
  exists k,
    _turn_player_do f w
    = (Returned tt,
       {| self := set_players (dict_update (players (self w)) k f) (self w);
          channel := channel w |})
    /\ dict_get (players (self w)) k = Some p
    /\ turn_player_of
         (set_players (dict_update (players (self w)) k f) (self w))
       = Returned (f p).
Proof.
  unfold turn_player_of, _turn_player_do, _turn_player, turn_key, mutate. run.
  destruct (int_mod _ _) as [i | e | ]; run; try discriminate.
  destruct (list_getitem _ _) as [k | e | ]; run; try discriminate.
  destruct (dict_get (players (self w)) k) as [q | ] eqn:Hk; run;
    try discriminate.
  intros [= ->]. exists k. repeat split; trivial.
  now rewrite (dict_get_update_same _ _ f p Hk).
Qed.

(** ** [_advance_turn] never completes *)

Lemma count_folded_raises (k : Z) (keys : list Z) :
  count_folded (k :: keys) = Raised TypeError.
Proof. reflexivity. Qed.

Lemma _advance_turn_raises (fuel : nat) (ctx : Context) (w : World) :
  players (self w) <> [] ->
  _advance_turn fuel ctx w = (Raised TypeError, w).
Proof.
  intro Hne. unfold _advance_turn, _get_fold_winner, num_folded. run.
  destruct (players (self w)) as [ | [k p] r]; [contradiction | reflexivity].
Qed.

Lemma skip_waiting_without_players (fuel : nat) (w : World) :
  players (self w) = [] -> forall a, fst (skip_waiting fuel w) <> Returned a.
Proof.
  intros Hnil a.
  assert (Hturn : forall p, turn_player_of (self w) <> Returned p).
  { intros p Hp.
    apply (_turn_player_found w w p); [ | exact Hnil].
    now rewrite _turn_player_reads, Hp. }
  destruct fuel; simpl; unfold bind; rewrite _turn_player_reads;
    destruct (turn_player_of (self w)) as [p | e | ]; simpl;
    try discriminate; now elim (Hturn p).
Qed.

Lemma _advance_turn_never_returns (fuel : nat) (ctx : Context) :
  never_returns (_advance_turn fuel ctx).
Proof.
  intros w a.
  destruct (players (self w)) as [ | kp r] eqn:Hp.
  - unfold _advance_turn, _get_fold_winner, num_folded. run. rewrite Hp. run.
    assert (Hskip : forall b,
      fst (skip_waiting fuel
             {| self := set_turn (turn (self w) + 1) (self w);
                channel := channel w |}) <> Returned b).
    { intro b. now apply skip_waiting_without_players. }
    destruct (_ <? _); run;
      destruct (skip_waiting fuel _) as [[b | e | ] w']; simpl in *;
      try discriminate; now elim (Hskip b).
  - rewrite _advance_turn_raises; [discriminate | now rewrite Hp].
Qed.


Lemma join_same_host (ctx : Context) (w : World) :
  host (self (after (join ctx) w)) = host (self w).
Proof.
  unfold join. run.
  destruct (ongoing_game (self w)); run; trivial.
  destruct (dict_contains (players (self w)) (id (author ctx))); run; trivial.
  match goal with
  | |- context [dict_get ?d ?k] => destruct (dict_get d k)
  end; reflexivity.
Qed.

Lemma run_call_same_host (fuel : nat) (c : Call) (w : World) :
  host (self (run_call fuel c w)) = host (self w).
Proof.
  destruct c as [ctx | ctx | ctx mv amt | ctx mv amt].
  - apply join_same_host.
  - now apply (in_round_call_preserves same_seats).
  - now apply (in_round_call_preserves same_seats).
  - now apply (in_round_call_preserves same_seats).
Qed.

Lemma try_move_raises (fuel : nat) (ctx : Context) (move : string)
    (amt : option Q) (w : World) :
  try_move fuel ctx move amt w = (Raised AttributeError, w).
Proof. reflexivity. Qed.

(** ** The pot *)

(** C9. No call on the engine writes the pot: after any sequence of [join],
    [start] and moves (fold, check, call, raise, all-in; through [try_move]
    or entered below its session guard) on a new session the pot is still
    [Decimal(0)]; each single call leaves the pot as it found it, and so do
    the two assignments of the raise branch. *)
Theorem pot_never_modified (fuel : nat) (cs : list Call) (cur : Currency)
    (h : User) (round_limit : Z) (buy : Q) (t0 : Z) :
  pot (self (run_calls fuel cs (new_session cur h round_limit buy t0))) = 0%Q
  /\ (forall c w, pot (self (run_call fuel c w)) = pot (self w))
  /\ (forall amt w, pot (self (after (raise_bet amt) w)) = pot (self w)).
Proof.
  split; [ | split].
  - apply (run_calls_invariant (fun g => pot g = 0%Q)); [ | reflexivity].
    intros c w Hw. now rewrite run_call_same_pot.
  - intros c w. apply run_call_same_pot.
  - intros amt w. apply (raise_bet_preserves same_pot).
Qed.

(** ** The decimal context *)

















(** ** Moving amounts that fit *)









(** ** The host's seat *)

Lemma host_leads_after_calls (fuel : nat) (cs : list Call) (cur : Currency)
    (h : User) (round_limit : Z) (buy : Q) (t0 : Z) :
  let g := self (run_calls fuel cs (new_session cur h round_limit buy t0)) in
  host g = h /\ host_leads_seating g.
Proof.
  apply (run_calls_invariant (fun g => host g = h /\ host_leads_seating g)).
  - intros c w [Hh Hw]. split.
    + now rewrite run_call_same_host.
    + now apply run_call_host_leads_seating.
  - split; reflexivity.
Qed.

(** With hal as host and ann and bob joined, [start] does not complain about
    the number of players; it fails later, where the board is printed and
    the dealer (the host's seat) has no record. *)
Lemma start_counts_host :
  start (by_ hal) two_joined
  = (Raised KeyError,
     {| self := self (after (start (by_ hal)) two_joined);
        channel := channel two_joined |})
  /\ fst (_dealer_player two_joined) = Raised KeyError.
Proof. evaluate. Qed.

(** ** The stage *)

Lemma stage_reads (w : World) :
  stage w = (list_index (count_none (_in_play (self w))) ROUND_STAGES, w).
Proof. reflexivity. Qed.

(** C7. The stage of a new game.  [stage] looks up, in [ROUND_STAGES], the
    number of slots of the board that are still [None]: a new game, with no
    card dealt, has five of them and is at stage index 3 (the river), not 0;
    with the flop dealt two slots are empty and the lookup raises; with all
    five cards dealt the stage index is 0. *)
Theorem stage_of_new_game (cur : Currency) (h : User) (round_limit : Z)
    (buy : Q) (t0 : Z) :
  fst (stage (new_session cur h round_limit buy t0)) = Returned 3
  /\ fst (stage flop_dealt) = Raised ValueError
  /\ fst (stage river_dealt) = Returned 0.
Proof. evaluate. Qed.

(** ** Starting with too few players *)

Lemma start_marks_round_started (ctx : Context) (w : World) :
  ongoing_round (self w) = false ->
  id (author ctx) = id (host (self w)) ->
  ongoing_game (self (after (start ctx) w)) = true
  /\ ongoing_round (self (after (start ctx) w)) = true.
Proof.
  intros Hround Hhost. unfold start. run.
  rewrite Hround, Hhost, Z.eqb_refl. simpl.
  assert (Hflags : forall w0,
    ongoing_game (self w0) = true -> ongoing_round (self w0) = true ->
    ongoing_game (self (snd (post_blinds ctx w0))) = true
    /\ ongoing_round (self (snd (post_blinds ctx w0))) = true).
  { intros w0 Hg Hr.
    destruct (post_blinds_preserves same_flags ctx w0) as [Hg' Hr'].
    now rewrite Hg', Hr'. }
  destruct (_ <? 3); run; apply Hflags; reflexivity.
Qed.

(** C3. [start] with fewer than 3 entries in [players_order].  The host
    alone: the complaint is sent, and then both lifecycle flags are set and
    the timeout bumped before the small blind's seat is looked up and
    [IndexError] is raised.  The host and one joined player: in addition the
    joined player has posted the small blind (0.10 of a buy-in of 20) when
    the big blind's seat is found missing. *)
Theorem start_short_of_players_goes_on :
  start (by_ hal) fresh
  = (Raised IndexError,
     {| self :=
          set_time_started 7
            (set_ongoing_round true (set_ongoing_game true (self fresh)));
        channel := [Send NeedThreePlayers] |})
  /\ fst (start (by_ hal) one_joined) = Raised IndexError
  /\ channel (after (start (by_ hal)) one_joined)
     = channel one_joined ++ [Send NeedThreePlayers]
  /\ ongoing_game (self (after (start (by_ hal)) one_joined)) = true
  /\ ongoing_round (self (after (start (by_ hal)) one_joined)) = true
  /\ committed_of (after (start (by_ hal)) one_joined) 2 == 1 # 10
  /\ committed_of one_joined 2 == 0.
Proof. evaluate. Qed.

(** ** Raise and call *)

Lemma turn_player_of_set_bet (v : Q) (g : PokerGame) :
  turn_player_of (set_bet v g) = turn_player_of g.
Proof.
  unfold turn_player_of, _turn_player, turn_key. run.
  destruct (int_mod _ _) as [i | e | ]; run; trivial.
  destruct (list_getitem _ _) as [k | e | ]; run; trivial.
  destruct (dict_get _ _); trivial.
Qed.

Lemma raise_bet_effect (r : Q) (w : World) (p : PokerPlayer) :
  _turn_player w = (Returned p, w) ->
  bet (self (after (raise_bet (Some r)) w)) = dec_add (bet (self w)) r
  /\ turn_player_of (self (after (raise_bet (Some r)) w))
     = Returned (move_in (dec_add (bet (self w)) r) p).
Proof.
  intro Hp. unfold raise_bet. run.
  set (w1 := {| self := set_bet (dec_add (bet (self w)) r) (self w);
                channel := channel w |}).
  assert (Hp1 : _turn_player w1 = (Returned p, w1)).
  { rewrite _turn_player_reads. rewrite _turn_player_reads in Hp.
    injection Hp as Hp. unfold w1. simpl self.
    now rewrite turn_player_of_set_bet, Hp. }
  destruct (_turn_player_do_effect (move_in (dec_add (bet (self w)) r)) w1 p
              Hp1)
    as (k & Hdo & _ & Hturn).
  rewrite Hdo. simpl. split; [reflexivity | exact Hturn].
Qed.

(** What the player has committed after the two assignments of the raise
    branch: the new bet on top of what was committed before. *)
Lemma raise_commits_new_bet_on_top (r : Q) (w : World) (p : PokerPlayer) :
  _turn_player w = (Returned p, w) ->
  exists p',
    turn_player_of (self (after (raise_bet (Some r)) w)) = Returned p'
    /\ amount_in p' = dec_add (amount_in p) (dec_add (bet (self w)) r)
    /\ amount p' = dec_sub (amount p) (dec_add (bet (self w)) r).
Proof.
  intro Hp. destruct (raise_bet_effect r w p Hp) as [_ Hturn].
  exists (move_in (dec_add (bet (self w)) r) p).
  split; [exact Hturn | split; reflexivity].
Qed.

(** C1. hal, who has posted the small blind 0.10, raises by 1 at a table bet
    of 0.20.  [try_move] raises [AttributeError] at its first line and
    nothing changes; entered below that line it raises [ValueError] where the
    announcement is formatted, again before anything changes; and the two
    assignments of the branch, run on their own, set the bet to 1.20 and
    hal's committed amount to 1.30, the new bet on top of the 0.10. *)
Theorem raise_by_committed_player :
  try_move 0 (by_ hal) MOVE_RAISE (Some 1%Q) host_small_blind
  = (Raised AttributeError, host_small_blind)
  /\ try_move_body 0 (by_ hal) MOVE_RAISE (Some 1%Q) host_small_blind
     = (Raised ValueError, host_small_blind)
  /\ bet (self host_small_blind) == 1 # 5
  /\ committed_of host_small_blind 1 == 1 # 10
  /\ bet (self (after (raise_bet (Some 1%Q)) host_small_blind)) == 6 # 5
  /\ committed_of (after (raise_bet (Some 1%Q)) host_small_blind) 1
     == 13 # 10.
Proof. evaluate. Qed.

Lemma call_is_check_at_zero_bet (fuel : nat) (ctx : Context)
    (amt : option Q) (w : World) :
  dec_eqb (bet (self w)) 0 = true ->
  try_move_body fuel ctx MOVE_CALL amt w
  = try_move_body fuel ctx MOVE_CHECK amt w.
Proof.
  intro Hzero. unfold try_move_body. run. rewrite Hzero. reflexivity.
Qed.

(** What a call that passed the guards commits: the whole table bet, on top
    of what was committed before. *)
Lemma call_commits_whole_bet (w : World) (p : PokerPlayer) :
  _turn_player w = (Returned p, w) ->
  exists w',
    perform MOVE_CALL None w = (Returned tt, w')
    /\ channel w' = channel w ++ [Send (HasCalled (name p))]
    /\ turn_player_of (self w') = Returned (move_in (bet (self w)) p).
Proof.
  intro Hp. unfold perform. simpl. run.
  destruct (_turn_player_do_effect (move_in (bet (self w))) w p Hp)
    as (k & Hdo & _ & Hturn).
  rewrite Hdo. rewrite _turn_player_reads. simpl. rewrite Hturn. simpl.
  eexists. split; [reflexivity | ]. simpl. now split.
Qed.

(** C4. hal, who has posted the small blind 0.10, calls the table bet of
    0.20.  [try_move] raises [AttributeError] and nothing changes.  Entered
    below its first line, the call takes the whole bet 0.20 from the stack:
    hal's committed amount becomes 0.30, not the table bet, the stack goes
    from 19.90 to 19.70, and the call ends in [TypeError] where the turn is
    to be advanced. *)
Theorem call_by_committed_player :
  try_move 0 (by_ hal) MOVE_CALL None host_small_blind
  = (Raised AttributeError, host_small_blind)
  /\ fst (try_move_body 0 (by_ hal) MOVE_CALL None host_small_blind)
     = Raised TypeError
  /\ bet (self host_small_blind) == 1 # 5
  /\ committed_of host_small_blind 1 == 1 # 10
  /\ stack_of host_small_blind 1 == 199 # 10
  /\ committed_of
       (after (try_move_body 0 (by_ hal) MOVE_CALL None) host_small_blind) 1
     == 3 # 10
  /\ stack_of
       (after (try_move_body 0 (by_ hal) MOVE_CALL None) host_small_blind) 1
     == 197 # 10.
Proof. evaluate. Qed.

(** ** Winning by fold *)

(** C6. hal folds in a round of two players (ann and hal), so that one
    player is left: [try_move] raises [AttributeError] and nothing changes;
    entered below its first line the fold is recorded and announced and the
    call ends in [TypeError] inside [_advance_turn]: nobody is announced as
    winner, ann's stack is what it was and the round is still marked as
    going on.  In a round of four with three folded, [_advance_turn] raises
    [TypeError] and changes nothing. *)
Theorem fold_win_not_settled :
  try_move 0 (by_ hal) MOVE_FOLD None host_big_blind
  = (Raised AttributeError, host_big_blind)
  /\ (let w' :=
        after (try_move_body 0 (by_ hal) MOVE_FOLD None) host_big_blind in
      fst (try_move_body 0 (by_ hal) MOVE_FOLD None host_big_blind)
      = Raised TypeError
      /\ option_map status (record_of w' 1) = Some STATUS_FOLDED
      /\ option_map status (record_of w' 2) = Some STATUS_IN
      /\ channel w' = channel host_big_blind ++ [Send (HasFolded "hal")]
      /\ stack_of w' 2 = stack_of host_big_blind 2
      /\ ongoing_round (self w') = true)
  /\ _advance_turn 0 (by_ cy) three_of_four_folded
     = (Raised TypeError, three_of_four_folded).
Proof. evaluate. Qed.

(** ** The guards of [try_move] *)

Lemma dec_ltb_spec (x y : Q) : dec_ltb x y = true <-> (x < y)%Q.
Proof.
  unfold dec_ltb. rewrite negb_true_iff.
  split.
  - intro Hle. apply Qnot_le_lt. intro Hyx.
    apply Qle_bool_iff in Hyx. congruence.
  - intro Hlt. destruct (Qle_bool y x) eqn:Hle; trivial.
    apply Qle_bool_iff in Hle. now apply Qlt_not_le in Hlt.
Qed.

Lemma dec_leb_spec (x y : Q) : dec_leb x y = true <-> (x <= y)%Q.
Proof. apply Qle_bool_iff. Qed.

Lemma dec_eqb_spec (x y : Q) : dec_eqb x y = true <-> x == y.
Proof. apply Qeq_bool_iff. Qed.

(** Decides the comparisons between the names of the moves. *)
Ltac decide_moves :=
  cbn [String.eqb Ascii.eqb Bool.eqb MOVE_FOLD MOVE_CHECK MOVE_CALL
       MOVE_RAISE MOVE_ALL_IN orb].

(** A call at a bet other than 0, or a raise, by the player whose turn it
    is: refused, or performed and followed by [_advance_turn]. *)
Lemma try_move_body_call_or_raise (fuel : nat) (ctx : Context) (move : string)
    (amt : option Q) (w : World) (p : PokerPlayer) :
  existsb (Z.eqb (id (author ctx))) (players_order (self w)) = true ->
  _turn_player w = (Returned p, w) ->
  id (author ctx) = discord_id p ->
  move = MOVE_RAISE \/ (move = MOVE_CALL /\ ~ bet (self w) == 0) ->
  try_move_body fuel ctx move amt w
  = if dec_leb (dec_add (amount p) (amount_in p)) (bet (self w))
    then rejection MustGoAllIn w
    else (perform move amt ;; _advance_turn fuel ctx) w.
Proof.
  intros Hin Hp Hid Hmove.
  rewrite _turn_player_reads in Hp. injection Hp as Hp.
  unfold try_move_body, bind at 1, get at 1. rewrite Hin. cbn [negb].
  unfold bind at 1. rewrite _turn_player_reads, Hp. cbv beta iota.
  rewrite Hid, Z.eqb_refl. cbn [negb].
  destruct Hmove as [-> | [-> Hbet]]; decide_moves.
  - rewrite !andb_false_r. cbv iota.
    unfold bind at 1. rewrite _turn_player_reads, Hp. cbv beta iota.
    rewrite andb_true_r.
    destruct (dec_leb _ _); reflexivity.
  - assert (Hz : dec_eqb (bet (self w)) 0 = false).
    { destruct (dec_eqb (bet (self w)) 0) eqn:Hz; trivial.
      apply dec_eqb_spec in Hz. contradiction. }
    rewrite Hz. cbn [andb]. rewrite andb_false_r. cbv iota.
    unfold bind at 1. rewrite _turn_player_reads, Hp. cbv beta iota.
    rewrite andb_true_r.
    destruct (dec_leb _ _); reflexivity.
Qed.

(** A check by the player whose turn it is: refused, or announced and
    followed by [_advance_turn]. *)
Lemma try_move_body_check (fuel : nat) (ctx : Context) (amt : option Q)
    (w : World) (p : PokerPlayer) :
  existsb (Z.eqb (id (author ctx))) (players_order (self w)) = true ->
  _turn_player w = (Returned p, w) ->
  id (author ctx) = discord_id p ->
  try_move_body fuel ctx MOVE_CHECK amt w
  = if dec_ltb 0 (bet (self w))
    then rejection (CannotCheck (currency (self w)) (bet (self w))) w
    else _advance_turn fuel ctx
           {| self := self w;
              channel := channel w ++ [Send (HasChecked (name p))] |}.
Proof.
  intros Hin Hp Hid.
  rewrite _turn_player_reads in Hp. injection Hp as Hp.
  unfold try_move_body, bind at 1, get at 1. rewrite Hin. cbn [negb]. cbv iota.
  unfold bind at 1. rewrite _turn_player_reads, Hp.
  rewrite Hid, Z.eqb_refl. cbn [negb]. cbv iota.
  replace (String.eqb MOVE_CHECK MOVE_FOLD) with false by reflexivity.
  replace (String.eqb MOVE_CHECK MOVE_CALL) with false by reflexivity.
  rewrite !andb_false_r. cbv iota.
  replace (String.eqb MOVE_CHECK MOVE_CHECK) with true by reflexivity.
  rewrite andb_true_r.
  destruct (dec_ltb 0 (bet (self w))); [reflexivity | ].
  unfold bind at 1. rewrite _turn_player_reads, Hp.
  replace (String.eqb MOVE_CHECK MOVE_RAISE) with false by reflexivity.
  cbn [orb]. rewrite andb_false_r. cbv iota.
  unfold perform.
  replace (String.eqb MOVE_CHECK MOVE_FOLD) with false by reflexivity.
  replace (String.eqb MOVE_CHECK MOVE_CHECK) with true by reflexivity.
  unfold bind. rewrite _turn_player_reads, Hp.
  reflexivity.
Qed.

(** C5, as the code has it.  Below the session guard of [try_move], a check
    by the player whose turn it is is refused with the cannot-check message,
    the game left as it was, exactly when the table bet is greater than 0,
    whatever the player has committed; at any other table bet the check is
    accepted: it is announced and the call goes on to advance the turn, with
    the game as it was. *)
Theorem check_refused_iff_bet_positive (fuel : nat) (ctx : Context)
    (amt : option Q) (w : World) (p : PokerPlayer) :
  existsb (Z.eqb (id (author ctx))) (players_order (self w)) = true ->
  _turn_player w = (Returned p, w) ->
  id (author ctx) = discord_id p ->
  (try_move_body fuel ctx MOVE_CHECK amt w
   = rejection (CannotCheck (currency (self w)) (bet (self w))) w
   <-> (0 < bet (self w))%Q)
  /\ (~ (0 < bet (self w))%Q ->
      try_move_body fuel ctx MOVE_CHECK amt w
      = _advance_turn fuel ctx
          {| self := self w;
             channel := channel w ++ [Send (HasChecked (name p))] |}).
Proof.
  intros Hin Hp Hid.
  rewrite (try_move_body_check fuel ctx amt w p Hin Hp Hid).
  destruct (dec_ltb 0 (bet (self w))) eqn:Hlt.
  - apply dec_ltb_spec in Hlt.
    split; [tauto | contradiction].
  - assert (Hn : ~ (0 < bet (self w))%Q).
    { intro Hpos. apply dec_ltb_spec in Hpos. congruence. }
    split; [ | reflexivity].
    split; [ | contradiction].
    intro Heq. exfalso.
    apply (_advance_turn_never_returns fuel ctx
             {| self := self w;
                channel := channel w ++ [Send (HasChecked (name p))] |} tt).
    now rewrite Heq.
Qed.


(** hal has posted the big blind, so that his committed amount equals the
    table bet of 0.20, and checks: the check is refused.  The rule that a
    check is accepted when the committed amount equals the bet fails here. *)
Lemma check_refused_at_matched_bet :
  ~ ((bet (self host_big_blind) == 0
      \/ committed_of host_big_blind 1 == bet (self host_big_blind)) ->
     try_move_body 0 (by_ hal) MOVE_CHECK None host_big_blind
     <> rejection (CannotCheck dollars (bet (self host_big_blind)))
          host_big_blind).
Proof.
  intro Hclaim. apply Hclaim.
  - right. vm_compute. reflexivity.
  - vm_compute. reflexivity.
Qed.

Lemma check_refused_iff_bet_positive_witness :
  (existsb (Z.eqb (id (author (by_ hal))))
     (players_order (self host_big_blind)) = true
   /\ _turn_player host_big_blind = (Returned hal_big_blind, host_big_blind)
   /\ id (author (by_ hal)) = discord_id hal_big_blind)
  /\ (try_move_body 0 (by_ hal) MOVE_CHECK None host_big_blind
      = rejection
          (CannotCheck (currency (self host_big_blind))
             (bet (self host_big_blind))) host_big_blind
      <-> (0 < bet (self host_big_blind))%Q)
  /\ (~ (0 < bet (self host_big_blind))%Q ->
      try_move_body 0 (by_ hal) MOVE_CHECK None host_big_blind
      = _advance_turn 0 (by_ hal)
          {| self := self host_big_blind;
             channel :=
               channel host_big_blind
               ++ [Send (HasChecked (name hal_big_blind))] |}).
Proof.
  split.
  - evaluate.
  - apply (check_refused_iff_bet_positive 0 (by_ hal) None host_big_blind
             hal_big_blind); vm_compute; reflexivity.
Defined.



(** * Further properties of the engine *)

(** ** Joining *)

Lemma dict_set_new {V : Type} (d : dict V) (k : Z) (v : V) :
  dict_contains d k = false -> dict_set d k v = d ++ [(k, v)].
Proof.
  unfold dict_contains.
  induction d as [ | [k' v'] r IH]; simpl; trivial.
  destruct (k' =? k); [discriminate | ].
  intro Hr. now rewrite IH.
Qed.

Lemma dict_get_app_new {V : Type} (d : dict V) (k : Z) (v : V) :
  dict_contains d k = false -> dict_get (d ++ [(k, v)]) k = Some v.
Proof.
  unfold dict_contains.
  induction d as [ | [k' v'] r IH]; simpl.
  - now rewrite Z.eqb_refl.
  - destruct (k' =? k); [discriminate | exact IH].
Qed.

(** The three ways [join] ends. *)
Lemma join_reads (ctx : Context) (w : World) :
  join ctx w
  = if ongoing_game (self w) then
      (Returned tt,
       {| self := self w;
          channel := channel w ++ [Typing; Send CannotJoinMidGame] |})
    else if dict_contains (players (self w)) (id (author ctx)) then
      (Returned tt,
       {| self := self w;
          channel :=
            channel w
            ++ [Typing; Send (AlreadyInGame (display_name (author ctx)))] |})
    else
      (Returned tt,
       {| self :=
            set_players_order (players_order (self w) ++ [id (author ctx)])
              (set_players
                 (players (self w)
                  ++ [(id (author ctx),
                       PokerPlayer_init (author ctx) (buy_in (self w)))])
                 (self w));
          channel :=
            channel w
            ++ [Typing; Send (HasJoined (display_name (author ctx)))] |}).
Proof.
  unfold join. run.
  destruct (ongoing_game (self w)); run.
  - now rewrite <- app_assoc.
  - destruct (dict_contains (players (self w)) (id (author ctx))) eqn:Hin; run.
    + now rewrite <- app_assoc.
    + rewrite (dict_set_new _ _ _ Hin), (dict_get_app_new _ _ _ Hin).
      simpl. now rewrite <- app_assoc.
Qed.

(** X1. A user who is not yet in the game joins while no game is going on:
    the call returns, a record with the buy-in as stack, nothing committed
    and status "in" is stored under the user's id after the records already
    there, the id is appended to the seating order, and the user is
    announced. *)
Theorem join_seats_player (ctx : Context) (w : World) :
  ongoing_game (self w) = false ->
  dict_contains (players (self w)) (id (author ctx)) = false ->
  join ctx w
  = (Returned tt,
     {| self :=
          set_players_order (players_order (self w) ++ [id (author ctx)])
            (set_players
               (players (self w)
                ++ [(id (author ctx),
                     {| user_object := author ctx;
                        amount := buy_in (self w);
                        amount_in := 0;
                        _status := STATUS_IN |})])
               (self w));
        channel :=
          channel w ++ [Typing; Send (HasJoined (display_name (author ctx)))]
     |}).
Proof.
  intros Hgame Hnew. rewrite join_reads, Hgame, Hnew. reflexivity.
Qed.

Lemma join_seats_player_witness :
  (ongoing_game (self fresh) = false
   /\ dict_contains (players (self fresh)) (id (author (by_ ann))) = false)
  /\ join (by_ ann) fresh
     = (Returned tt,
        {| self :=
             set_players_order
               (players_order (self fresh) ++ [id (author (by_ ann))])
               (set_players
                  (players (self fresh)
                   ++ [(id (author (by_ ann)),
                        {| user_object := author (by_ ann);
                           amount := buy_in (self fresh);
                           amount_in := 0;
                           _status := STATUS_IN |})])
                  (self fresh));
           channel :=
             channel fresh
             ++ [Typing; Send (HasJoined (display_name (author (by_ ann))))]
        |}).
Proof.
  split.
  - split; reflexivity.
  - apply (join_seats_player (by_ ann) fresh); reflexivity.
Defined.

(** X2. A join while a game is going on, or by a user who already has a
    record, returns after answering with the matching complaint and leaves
    the game as it was. *)
Theorem join_refused (ctx : Context) (w : World) :
  ongoing_game (self w) = true
  \/ dict_contains (players (self w)) (id (author ctx)) = true ->
  join ctx w
  = (Returned tt,
     {| self := self w;
        channel :=
          channel w
          ++ [Typing;
              Send (if ongoing_game (self w) then CannotJoinMidGame
                    else AlreadyInGame (display_name (author ctx)))] |}).
Proof.
  intro Hwhy. rewrite join_reads.
  destruct (ongoing_game (self w)); [reflexivity | ].
  destruct Hwhy as [Hgame | Hin]; [discriminate | ].
  now rewrite Hin.
Qed.

Lemma join_refused_witness :
  (ongoing_game (self seated_pair) = true
   \/ dict_contains (players (self seated_pair)) (id (author (by_ ann)))
      = true)
  /\ join (by_ ann) seated_pair
     = (Returned tt,
        {| self := self seated_pair;
           channel :=
             channel seated_pair
             ++ [Typing;
                 Send (if ongoing_game (self seated_pair)
                       then CannotJoinMidGame
                       else AlreadyInGame (display_name (author (by_ ann))))]
        |}).
Proof.
  assert (Hin : ongoing_game (self seated_pair) = true
                \/ dict_contains (players (self seated_pair))
                     (id (author (by_ ann))) = true).
  { right. vm_compute. reflexivity. }
  split.
  - exact Hin.
  - exact (join_refused (by_ ann) seated_pair Hin).
Defined.

(** X3. Joining twice is joining once: whatever the first [join] of a user
    did, a second one by the same user leaves the game as the first left
    it. *)
Theorem join_twice_is_join_once (ctx : Context) (w : World) :
  self (after (join ctx) (after (join ctx) w)) = self (after (join ctx) w).
Proof.
  unfold after. rewrite (join_reads ctx w).
  destruct (ongoing_game (self w)) eqn:Hgame.
  - rewrite join_reads. simpl. now rewrite Hgame.
  - destruct (dict_contains (players (self w)) (id (author ctx))) eqn:Hin.
    + rewrite join_reads. simpl. now rewrite Hgame, Hin.
    + rewrite join_reads. simpl. rewrite Hgame.
      unfold dict_contains. now rewrite (dict_get_app_new _ _ _ Hin).
Qed.

(** ** Starting *)

(** [start] either turns the caller down or goes on to set the flags and
    post the blinds. *)
Lemma start_reads (ctx : Context) (w : World) :
  start ctx w
  = if ongoing_round (self w) then rejection CannotStartMidRound w
    else if negb (id (author ctx) =? id (host (self w)))
    then rejection HostMustStart w
    else
      ((if Z.of_nat (List.length (players_order (self w))) <? 3
        then send NeedThreePlayers else ret tt) ;;
       modify (set_ongoing_game true) ;;
       modify (set_ongoing_round true) ;;
       post_blinds ctx) w.
Proof.
  unfold start, bind at 1, get. cbv beta iota.
  destruct (ongoing_round (self w)); [reflexivity | ].
  destruct (negb (id (author ctx) =? id (host (self w)))); reflexivity.
Qed.

(** X4. [start] while a round is going on, or by anyone but the host, only
    answers with the matching complaint: the game is left as it was. *)
Theorem start_refused (ctx : Context) (w : World) :
  ongoing_round (self w) = true \/ id (author ctx) <> id (host (self w)) ->
  start ctx w
  = rejection
      (if ongoing_round (self w) then CannotStartMidRound else HostMustStart)
      w.
Proof.
  intro Hwhy. rewrite start_reads.
  destruct (ongoing_round (self w)); [reflexivity | ].
  destruct Hwhy as [Hround | Hhost]; [discriminate | ].
  destruct (Z.eqb_spec (id (author ctx)) (id (host (self w)))); simpl;
    [contradiction | reflexivity].
Qed.

Lemma start_refused_witness :
  (ongoing_round (self seated_pair) = true
   \/ id (author (by_ ann)) <> id (host (self seated_pair)))
  /\ start (by_ ann) seated_pair
     = rejection
         (if ongoing_round (self seated_pair)
          then CannotStartMidRound else HostMustStart)
         seated_pair.
Proof.
  assert (Hwhy : ongoing_round (self seated_pair) = true
                 \/ id (author (by_ ann)) <> id (host (self seated_pair))).
  { right. vm_compute. discriminate. }
  split.
  - exact Hwhy.
  - exact (start_refused (by_ ann) seated_pair Hwhy).
Defined.

Lemma join_unchanged_or_seated (ctx : Context) (w : World) :
  self (after (join ctx) w) = self w
  \/ (ongoing_game (self w) = false
      /\ dict_contains (players (self w)) (id (author ctx)) = false
      /\ self (after (join ctx) w)
         = set_players_order (players_order (self w) ++ [id (author ctx)])
             (set_players
                (players (self w)
                 ++ [(id (author ctx),
                      PokerPlayer_init (author ctx) (buy_in (self w)))])
                (self w))).
Proof.
  unfold after. rewrite join_reads.
  destruct (ongoing_game (self w)); [now left | ].
  destruct (dict_contains (players (self w)) (id (author ctx)));
    [now left | right; auto].
Qed.

Lemma start_keeps_flags_up (ctx : Context) (w : World) :
  (ongoing_game (self w) = true ->
   ongoing_game (self (after (start ctx) w)) = true)
  /\ (ongoing_round (self w) = true ->
      ongoing_round (self (after (start ctx) w)) = true).
Proof.
  destruct (ongoing_round (self w)) eqn:Hround.
  - unfold after. rewrite start_reads, Hround. simpl. auto.
  - destruct (Z.eqb_spec (id (author ctx)) (id (host (self w))))
      as [Hhost | Hhost].
    + destruct (start_marks_round_started ctx w Hround Hhost) as [Hg Hr].
      auto.
    + unfold after. rewrite start_reads, Hround.
      destruct (Z.eqb_spec (id (author ctx)) (id (host (self w))));
        [contradiction | ].
      simpl. split; [auto | discriminate].
Qed.

Lemma run_call_keeps_flags_up (fuel : nat) (c : Call) (w : World) :
  (ongoing_game (self w) = true ->
   ongoing_game (self (run_call fuel c w)) = true)
  /\ (ongoing_round (self w) = true ->
      ongoing_round (self (run_call fuel c w)) = true).
Proof.
  destruct c as [ctx | ctx | ctx mv amt | ctx mv amt]; simpl.
  - destruct (join_unchanged_or_seated ctx w) as [-> | (_ & _ & ->)];
      simpl; auto.
  - apply start_keeps_flags_up.
  - unfold after.
    destruct (try_move_preserves same_flags fuel ctx mv amt w) as [-> ->].
    auto.
  - unfold after.
    destruct (try_move_body_preserves same_flags fuel ctx mv amt w)
      as [-> ->].
    auto.
Qed.

Lemma run_calls_keep_round_up (fuel : nat) (cs : list Call) (w : World) :
  ongoing_round (self w) = true ->
  ongoing_round (self (run_calls fuel cs w)) = true.
Proof.
  apply (run_calls_invariant (fun g => ongoing_round g = true)).
  intros c w0. apply run_call_keeps_flags_up.
Qed.

(** X5. A round never ends.  Once [ongoing_round] is set it is still set
    after any further calls, and every later [start], by whomever, is turned
    down with the round-in-progress complaint. *)
Theorem round_never_ends (fuel : nat) (cs : list Call) (ctx : Context)
    (w : World) :
  ongoing_round (self w) = true ->
  ongoing_round (self (run_calls fuel cs w)) = true
  /\ start ctx (run_calls fuel cs w)
     = rejection CannotStartMidRound (run_calls fuel cs w).
Proof.
  intro Hround.
  pose proof (run_calls_keep_round_up fuel cs w Hround) as Hstill.
  split; [exact Hstill | ].
  rewrite start_reads, Hstill. reflexivity.
Qed.

Lemma round_never_ends_witness :
  ongoing_round (self host_small_blind) = true
  /\ ongoing_round (self (run_calls 2 a_round host_small_blind)) = true
  /\ start (by_ hal) (run_calls 2 a_round host_small_blind)
     = rejection CannotStartMidRound (run_calls 2 a_round host_small_blind).
Proof.
  split.
  - reflexivity.
  - apply (round_never_ends 2 a_round (by_ hal) host_small_blind).
    reflexivity.
Defined.

Lemma run_call_locked (fuel : nat) (c : Call) (w : World) :
  ongoing_game (self w) = true ->
  ongoing_game (self (run_call fuel c w)) = true
  /\ players_order (self (run_call fuel c w)) = players_order (self w)
  /\ dict_keys (players (self (run_call fuel c w)))
     = dict_keys (players (self w)).
Proof.
  intro Hgame.
  split; [now apply run_call_keeps_flags_up | ].
  destruct c as [ctx | ctx | ctx mv amt | ctx mv amt]; simpl.
  - unfold after. rewrite join_reads, Hgame. simpl. auto.
  - destruct (start_preserves same_seats ctx) with (w := w) as (Ho & Hk & _);
      try (intros; unfold same_seats; simpl; auto).
  - destruct (try_move_preserves same_seats fuel ctx mv amt w)
      as (Ho & Hk & _).
    auto.
  - destruct (try_move_body_preserves same_seats fuel ctx mv amt w)
      as (Ho & Hk & _).
    auto.
Qed.

Lemma run_calls_locked (fuel : nat) (cs : list Call) (w : World) :
  ongoing_game (self w) = true ->
  ongoing_game (self (run_calls fuel cs w)) = true
  /\ players_order (self (run_calls fuel cs w)) = players_order (self w)
  /\ dict_keys (players (self (run_calls fuel cs w)))
     = dict_keys (players (self w)).
Proof.
  intro Hgame.
  apply (run_calls_invariant
           (fun g => ongoing_game g = true
                     /\ players_order g = players_order (self w)
                     /\ dict_keys (players g) = dict_keys (players (self w)))).
  - intros c w0 (Hg & Ho & Hk).
    destruct (run_call_locked fuel c w0 Hg) as (Hg' & Ho' & Hk').
    rewrite Ho', Hk'. auto.
  - auto.
Qed.

(** X6. The seating is locked once a game is going on: after any further
    calls the seating order and the ids that have a record are what they
    were, and a [join] is still turned down with the game-in-progress
    complaint. *)
Theorem seating_locked_once_started (fuel : nat) (cs : list Call)
    (ctx : Context) (w : World) :
  ongoing_game (self w) = true ->
  players_order (self (run_calls fuel cs w)) = players_order (self w)
  /\ dict_keys (players (self (run_calls fuel cs w)))
     = dict_keys (players (self w))
  /\ join ctx (run_calls fuel cs w)
     = (Returned tt,
        {| self := self (run_calls fuel cs w);
           channel :=
             channel (run_calls fuel cs w)
             ++ [Typing; Send CannotJoinMidGame] |}).
Proof.
  intro Hgame.
  destruct (run_calls_locked fuel cs w Hgame) as (Hstill & Ho & Hk).
  split; [exact Ho | split; [exact Hk | ]].
  rewrite join_reads, Hstill. reflexivity.
Qed.

Lemma seating_locked_once_started_witness :
  ongoing_game (self host_big_blind) = true
  /\ players_order
       (self (run_calls 1 [Join (by_ bob); Join (by_ cy)] host_big_blind))
     = players_order (self host_big_blind)
  /\ dict_keys
       (players
          (self (run_calls 1 [Join (by_ bob); Join (by_ cy)] host_big_blind)))
     = dict_keys (players (self host_big_blind))
  /\ join (by_ bob)
       (run_calls 1 [Join (by_ bob); Join (by_ cy)] host_big_blind)
     = (Returned tt,
        {| self :=
             self (run_calls 1 [Join (by_ bob); Join (by_ cy)] host_big_blind);
           channel :=
             channel
               (run_calls 1 [Join (by_ bob); Join (by_ cy)] host_big_blind)
             ++ [Typing; Send CannotJoinMidGame] |}).
Proof.
  split.
  - reflexivity.
  - apply (seating_locked_once_started 1 [Join (by_ bob); Join (by_ cy)]
             (by_ bob) host_big_blind).
    reflexivity.
Defined.

(** X7. One [start] by the host is final, whatever the number of seats.  If
    no round is going on and the host calls [start], then, however that call
    ended, both flags are set and after any further calls the seating order
    and the ids with a record are those from before the [start]: a session
    started with too few players can neither be joined nor started again. *)
Theorem start_by_host_is_final (fuel : nat) (cs : list Call) (ctx : Context)
    (w : World) :
  ongoing_round (self w) = false ->
  id (author ctx) = id (host (self w)) ->
  let w' := run_calls fuel cs (after (start ctx) w) in
  ongoing_game (self w') = true
  /\ ongoing_round (self w') = true
  /\ players_order (self w') = players_order (self w)
  /\ dict_keys (players (self w')) = dict_keys (players (self w)).
Proof.
  intros Hround Hhost w'.
  destruct (start_marks_round_started ctx w Hround Hhost) as [Hg Hr].
  destruct (run_calls_locked fuel cs (after (start ctx) w) Hg)
    as (Hg' & Ho & Hk).
  destruct (start_preserves same_seats ctx) with (w := w) as (Ho0 & Hk0 & _);
    try (intros; unfold same_seats; simpl; auto).
  unfold w'. repeat split; trivial.
  - now apply run_calls_keep_round_up.
  - now rewrite Ho.
  - now rewrite Hk.
Qed.

Lemma start_by_host_is_final_witness :
  (ongoing_round (self fresh) = false
   /\ id (author (by_ hal)) = id (host (self fresh)))
  /\ (let w' :=
        run_calls 1 [Join (by_ ann); Start (by_ hal)]
          (after (start (by_ hal)) fresh) in
      ongoing_game (self w') = true
      /\ ongoing_round (self w') = true
      /\ players_order (self w') = players_order (self fresh)
      /\ dict_keys (players (self w')) = dict_keys (players (self fresh))).
Proof.
  split.
  - split; reflexivity.
  - apply (start_by_host_is_final 1 [Join (by_ ann); Start (by_ hal)]
             (by_ hal) fresh); reflexivity.
Defined.

(** ** The cards *)

Lemma card_eqb_eq (c d : Card) : card_eqb c d = true <-> c = d.
Proof.
  destruct c as [s n], d as [s' n']. unfold card_eqb. simpl.
  rewrite andb_true_iff, !String.eqb_eq.
  split; [intros [-> ->]; reflexivity | intros [= -> ->]; auto].
Qed.

Lemma distinct_NoDup (l : list Card) : distinct l = true -> NoDup l.
Proof.
  induction l as [ | c r IH]; simpl; intro Hl; [constructor | ].
  apply andb_true_iff in Hl. destruct Hl as [Hc Hr].
  constructor; [ | auto].
  intro Hin. apply negb_true_iff in Hc.
  assert (Hex : existsb (card_eqb c) r = true).
  { apply existsb_exists. exists c. split; [exact Hin | now apply card_eqb_eq]. }
  congruence.
Qed.

Lemma DECK_spec (s n : string) :
  In (s, n) DECK <-> In s SUITS /\ In n NUMBERS.
Proof.
  unfold DECK. rewrite in_flat_map. split.
  - intros (n' & Hn & Hin). apply in_map_iff in Hin.
    destruct Hin as (s' & [= -> ->] & Hs). auto.
  - intros [Hs Hn]. exists n. split; [exact Hn | ].
    apply in_map_iff. exists s. auto.
Qed.

#[export] Instance same_cards_frame : RoundFrame same_cards.
Proof.
  split; unfold same_cards; intros; simpl; try (split; reflexivity).
  intuition congruence.
Qed.

Lemma run_call_same_cards (fuel : nat) (c : Call) (w : World) :
  same_cards (self w) (self (run_call fuel c w)).
Proof.
  destruct c as [ctx | ctx | ctx mv amt | ctx mv amt].
  - simpl. destruct (join_unchanged_or_seated ctx w) as [-> | (_ & _ & ->)];
      split; reflexivity.
  - apply (in_round_call_preserves same_cards); try exact I;
      intros; split; reflexivity.
  - apply (in_round_call_preserves same_cards); try exact I;
      intros; split; reflexivity.
  - apply (in_round_call_preserves same_cards); try exact I;
      intros; split; reflexivity.
Qed.

(** X9. No card is ever dealt.  After any calls on a new session the deck
    is still the full deck — 52 cards, none twice, one for each suit and
    number — the five slots of the board are still empty, and [stage]
    therefore still answers 3. *)
Theorem no_card_is_ever_dealt (fuel : nat) (cs : list Call) (cur : Currency)
    (h : User) (round_limit : Z) (buy : Q) (t0 : Z) :
  let w := run_calls fuel cs (new_session cur h round_limit buy t0) in
  List.length (_deck (self w)) = 52%nat
  /\ NoDup (_deck (self w))
  /\ (forall s n,
        In (s, n) (_deck (self w)) <-> In s SUITS /\ In n NUMBERS)
  /\ _in_play (self w) = [None; None; None; None; None]
  /\ fst (stage w) = Returned 3.
Proof.
  intro w.
  assert (Hcards : _deck (self w) = DECK
                   /\ _in_play (self w) = [None; None; None; None; None]).
  { apply (run_calls_invariant
             (fun g => _deck g = DECK
                       /\ _in_play g = [None; None; None; None; None])).
    - intros c w0 [Hd Hb].
      destruct (run_call_same_cards fuel c w0) as [-> ->]. auto.
    - split; reflexivity. }
  destruct Hcards as [Hdeck Hboard]. rewrite Hdeck.
  split; [reflexivity | ].
  split; [apply distinct_NoDup; vm_compute; reflexivity | ].
  split; [apply DECK_spec | ].
  split; [exact Hboard | ].
  rewrite stage_reads, Hboard. reflexivity.
Qed.

(** ** What a move may touch *)

Lemma bind_fails {A B : Type} (m : M A) (k : A -> M B) (w w' : World)
    (o : Outcome A) :
  m w = (o, w') -> (forall a, o <> Returned a) ->
  snd (bind m k w) = w' /\ forall b, fst (bind m k w) <> Returned b.
Proof.
  intros Hm Ho. unfold bind. rewrite Hm.
  destruct o as [a | e | ]; simpl.
  - now elim (Ho a).
  - split; [reflexivity | discriminate].
  - split; [reflexivity | discriminate].
Qed.

Lemma announce_raise_fails (amt : option Q) (w : World) :
  exists o, (forall a, o <> Returned a) /\ announce_raise amt w = (o, w).
Proof.
  unfold announce_raise, bind. rewrite _turn_player_reads.
  destruct (turn_player_of (self w)) as [p | e | ]; simpl.
  - destruct amt as [a | ]; simpl; eexists; (split; [ | reflexivity]);
      discriminate.
  - eexists; (split; [ | reflexivity]); discriminate.
  - eexists; (split; [ | reflexivity]); discriminate.
Qed.

(** The raise branch never gets to its assignments. *)
Lemma raise_branch_unchanged (amt : option Q) (w : World) :
  snd ((announce_raise amt ;; raise_bet amt) w) = w
  /\ forall a, fst ((announce_raise amt ;; raise_bet amt) w) <> Returned a.
Proof.
  destruct (announce_raise_fails amt w) as (o & Ho & Hw).
  exact (bind_fails _ _ w w o Hw Ho).
Qed.

Section Records.

Context (R : PokerGame -> PokerGame -> Prop) `{RecordFrame R}.

Lemma kept_ret {A : Type} (a : A) : preserves R (ret a).
Proof. intro w. apply record_refl. Qed.

Lemma kept_raise {A : Type} (e : Exception) : preserves R (raise (A := A) e).
Proof. intro w. apply record_refl. Qed.

Lemma kept_lift {A : Type} (o : Outcome A) : preserves R (lift o).
Proof. intro w. apply record_refl. Qed.

Lemma kept_get : preserves R get.
Proof. intro w. apply record_refl. Qed.

Lemma kept_emit (e : Event) : preserves R (emit e).
Proof. intro w. apply record_refl. Qed.

Lemma kept_modify (f : PokerGame -> PokerGame) :
  (forall g, R g (f g)) -> preserves R (modify f).
Proof. intros Hf w. apply Hf. Qed.

Lemma kept_bind {A B : Type} (m : M A) (k : A -> M B) :
  preserves R m -> (forall a, preserves R (k a)) -> preserves R (bind m k).
Proof.
  intros Hm Hk w. unfold bind.
  specialize (Hm w).
  destruct (m w) as [[a | e | ] w']; simpl in *; trivial.
  eapply record_trans; [exact Hm | apply Hk].
Qed.

Ltac record_walk :=
  cbv beta zeta;
  repeat first
    [ assumption
    | match goal with
      | Hm : forall x, preserves _ _ |- preserves _ _ => apply Hm
      end
    | apply kept_ret
    | apply kept_raise
    | apply kept_lift
    | apply kept_get
    | apply kept_emit
    | apply kept_modify; intro;
      solve [apply record_move_in | apply record_status | auto]
    | apply kept_bind; [ | intro ]
    | match goal with
      | |- preserves _ (if ?b then _ else _) => destruct b
      | |- preserves _ (match ?x with _ => _ end) => destruct x
      end ].

Lemma kept_turn_key : preserves R turn_key.
Proof. unfold turn_key, players_order_getitem. record_walk. Qed.

Lemma kept__turn_player : preserves R _turn_player.
Proof.
  unfold _turn_player, players_getitem.
  pose proof kept_turn_key. record_walk.
Qed.

Lemma kept_move_in_by_turn_player (a : Q) :
  preserves R (_turn_player_do (move_in a)).
Proof.
  pose proof kept_turn_key.
  unfold _turn_player_do, players_getitem, mutate. record_walk.
Qed.

Lemma kept_status_of_turn_player (s : string) :
  preserves R (_turn_player_do (set_status s)).
Proof.
  pose proof kept_turn_key.
  unfold _turn_player_do, players_getitem, mutate. record_walk.
Qed.

Lemma kept_print_game_screen (ctx : Context) :
  preserves R (_print_game_screen ctx).
Proof.
  pose proof kept__turn_player.
  unfold _print_game_screen, _dealer_player, _small_blind_player,
    _big_blind_player, players_order_getitem, players_getitem, send.
  record_walk.
Qed.

Lemma kept_perform (move : string) (amt : option Q) :
  preserves R (perform move amt).
Proof.
  pose proof kept__turn_player.
  pose proof kept_move_in_by_turn_player.
  pose proof kept_status_of_turn_player.
  unfold perform.
  destruct (String.eqb move MOVE_FOLD); [unfold send; record_walk | ].
  destruct (String.eqb move MOVE_CHECK); [unfold send; record_walk | ].
  destruct (String.eqb move MOVE_CALL); [unfold send; record_walk | ].
  destruct (String.eqb move MOVE_RAISE).
  - intro w. destruct (raise_branch_unchanged amt w) as [-> _].
    apply record_refl.
  - unfold go_all_in, send. record_walk.
Qed.

Lemma kept_blinds_and_board (ctx : Context) :
  (forall v g, R g (set_bet v g)) ->
  (forall v g, R g (set_turn v g)) ->
  preserves R (blinds_and_board ctx).
Proof.
  intros Hbet Hturn.
  pose proof (kept_print_game_screen ctx).
  unfold blinds_and_board, _small_blind_player_do, _big_blind_player_do,
    players_order_getitem, players_getitem, mutate.
  record_walk.
Qed.

Lemma kept_post_blinds (ctx : Context) :
  (forall v g, R g (set_time_started v g)) ->
  (forall v g, R g (set_bet v g)) ->
  (forall v g, R g (set_turn v g)) ->
  preserves R (post_blinds ctx).
Proof.
  intros Htime Hbet Hturn.
  pose proof (kept_blinds_and_board ctx Hbet Hturn).
  change (post_blinds ctx)
    with (modify (set_time_started (now ctx)) ;; blinds_and_board ctx).
  record_walk.
Qed.

Lemma kept_start (ctx : Context) :
  (forall v g, R g (set_ongoing_game v g)) ->
  (forall v g, R g (set_ongoing_round v g)) ->
  (forall v g, R g (set_time_started v g)) ->
  (forall v g, R g (set_bet v g)) ->
  (forall v g, R g (set_turn v g)) ->
  preserves R (start ctx).
Proof.
  intros Hgame Hround Htime Hbet Hturn.
  pose proof (kept_post_blinds ctx Htime Hbet Hturn).
  unfold start, send. record_walk.
Qed.

End Records.

#[export] Instance only_records_frame : RecordFrame only_records.
Proof.
  split; unfold only_records.
  - intros []. reflexivity.
  - intros g1 g2 g3 <- <-. reflexivity.
  - intros k a g. reflexivity.
  - intros k s g. reflexivity.
Qed.

Lemma identities_update (d : dict PokerPlayer) (k : Z)
    (f : PokerPlayer -> PokerPlayer) :
  (forall p, user_object (f p) = user_object p) ->
  identities (dict_update d k f) = identities d.
Proof.
  intro Hf. unfold identities.
  induction d as [ | [k' v] r IH]; simpl; trivial.
  destruct (k' =? k); simpl; [now rewrite Hf | now rewrite IH].
Qed.

#[export] Instance same_identities_frame : RecordFrame same_identities.
Proof.
  split; unfold same_identities; intros; simpl;
    try rewrite identities_update; try reflexivity; try congruence.
Qed.

(** [try_move] below its first line, guard by guard. *)
Lemma try_move_body_reads (fuel : nat) (ctx : Context) (move : string)
    (amt : option Q) (w : World) :
  try_move_body fuel ctx move amt w
  = if negb (existsb (Z.eqb (id (author ctx))) (players_order (self w)))
    then rejection NotParticipant w
    else
      match turn_player_of (self w) with
      | Returned p =>
          if negb (id (author ctx) =? discord_id p)
          then rejection NotYourTurn w
          else if dec_eqb (bet (self w)) 0 && String.eqb move MOVE_FOLD
          then rejection WhyFold w
          else if dec_ltb 0 (bet (self w))
                  && String.eqb (effective_move (self w) move) MOVE_CHECK
          then rejection (CannotCheck (currency (self w)) (bet (self w))) w
          else if dec_leb (dec_add (amount p) (amount_in p)) (bet (self w))
                  && (String.eqb (effective_move (self w) move) MOVE_CALL
                      || String.eqb (effective_move (self w) move) MOVE_RAISE)
          then rejection MustGoAllIn w
          else
            (perform (effective_move (self w) move) amt ;;
             _advance_turn fuel ctx) w
      | Raised e => (Raised e, w)
      | Unfinished => (Unfinished, w)
      end.
Proof.
  unfold try_move_body, effective_move, bind, get. cbv beta iota.
  destruct (negb (existsb (Z.eqb (id (author ctx))) (players_order (self w))));
    [reflexivity | ].
  rewrite _turn_player_reads.
  destruct (turn_player_of (self w)) as [p | e | ] eqn:Hp; cbv beta iota;
    try reflexivity.
  destruct (negb (id (author ctx) =? discord_id p)); [reflexivity | ].
  destruct (dec_eqb (bet (self w)) 0 && String.eqb move MOVE_FOLD);
    [reflexivity | ].
  destruct (dec_ltb 0 (bet (self w)) && _); [reflexivity | ].
  rewrite _turn_player_reads, Hp. cbv beta iota.
  destruct (dec_leb (dec_add (amount p) (amount_in p)) (bet (self w)) && _);
    reflexivity.
Qed.

(** The three ways [try_move] ends below its first line: a refusal, a
    failure to find the player whose turn it is, or the move itself followed
    by [_advance_turn]. *)
Lemma try_move_body_cases (fuel : nat) (ctx : Context) (move : string)
    (amt : option Q) (w : World) :
  (exists m,
     refusal m = true /\ try_move_body fuel ctx move amt w = rejection m w)
  \/ (snd (try_move_body fuel ctx move amt w) = w
      /\ forall a, fst (try_move_body fuel ctx move amt w) <> Returned a)
  \/ (exists p mv,
        turn_player_of (self w) = Returned p
        /\ id (author ctx) = discord_id p
        /\ try_move_body fuel ctx move amt w
           = (perform mv amt ;; _advance_turn fuel ctx) w).
Proof.
  rewrite try_move_body_reads.
  destruct (negb (existsb (Z.eqb (id (author ctx))) (players_order (self w)))).
  { left. exists NotParticipant. split; reflexivity. }
  destruct (turn_player_of (self w)) as [p | e | ] eqn:Hp.
  2: { right. left. split; [reflexivity | discriminate]. }
  2: { right. left. split; [reflexivity | discriminate]. }
  destruct (Z.eqb_spec (id (author ctx)) (discord_id p)) as [Hid | Hid];
    cbn [negb].
  2: { left. exists NotYourTurn. split; reflexivity. }
  destruct (dec_eqb (bet (self w)) 0 && String.eqb move MOVE_FOLD).
  { left. exists WhyFold. split; reflexivity. }
  destruct (dec_ltb 0 (bet (self w)) && _).
  { left. eexists. split; [ | reflexivity]. reflexivity. }
  destruct (dec_leb (dec_add (amount p) (amount_in p)) (bet (self w)) && _).
  { left. exists MustGoAllIn. split; reflexivity. }
  right. right. exists p, (effective_move (self w) move). auto.
Qed.

Lemma perform_then_advance (fuel : nat) (ctx : Context) (mv : string)
    (amt : option Q) (w : World) (p : PokerPlayer) :
  turn_player_of (self w) = Returned p ->
  snd ((perform mv amt ;; _advance_turn fuel ctx) w) = snd (perform mv amt w)
  /\ forall a,
       fst ((perform mv amt ;; _advance_turn fuel ctx) w) <> Returned a.
Proof.
  intro Hp.
  assert (Hne : players (self w) <> []).
  { apply (_turn_player_found w w p). now rewrite _turn_player_reads, Hp. }
  unfold bind.
  destruct (perform mv amt w) as [[[] | e | ] w1] eqn:Hperf; simpl;
    try (split; [reflexivity | discriminate]).
  assert (Hne1 : players (self w1) <> []).
  { destruct (perform_preserves same_seats mv amt w) as (_ & Hk & _).
    rewrite Hperf in Hk. simpl in Hk.
    intro Hnil. rewrite Hnil in Hk.
    destruct (players (self w)); [contradiction | discriminate]. }
  rewrite (_advance_turn_raises fuel ctx w1 Hne1).
  split; [reflexivity | discriminate].
Qed.

Lemma kept_try_move_body (R : PokerGame -> PokerGame -> Prop)
    `{RecordFrame R} (fuel : nat) (ctx : Context) (move : string)
    (amt : option Q) :
  preserves R (try_move_body fuel ctx move amt).
Proof.
  intro w.
  destruct (try_move_body_cases fuel ctx move amt w)
    as [(m & _ & ->) | [[-> _] | (p & mv & Hp & _ & ->)]].
  - apply record_refl.
  - apply record_refl.
  - destruct (perform_then_advance fuel ctx mv amt w p Hp) as [-> _].
    apply (kept_perform R).
Qed.

Lemma kept_in_round_call (R : PokerGame -> PokerGame -> Prop)
    `{RecordFrame R} (fuel : nat) (c : Call) (w : World) :
  (forall v g, R g (set_ongoing_game v g)) ->
  (forall v g, R g (set_ongoing_round v g)) ->
  (forall v g, R g (set_time_started v g)) ->
  (forall v g, R g (set_bet v g)) ->
  (forall v g, R g (set_turn v g)) ->
  in_round c -> R (self w) (self (run_call fuel c w)).
Proof.
  intros Hgame Hround Htime Hbet Hturn.
  destruct c as [ctx | ctx | ctx mv amt | ctx mv amt]; simpl; intro Hc.
  - contradiction.
  - now apply (kept_start R).
  - apply record_refl.
  - apply (kept_try_move_body R).
Qed.

(** X10. A move changes nothing but the players' records.  Entered below
    its first line, [try_move] leaves every field of the game other than
    [players] as it was, whatever the move and however the call ends: the
    turn does not advance, the table bet is not raised, the flags, the pot
    and the seating order stay, and the same ids have a record. *)
Theorem moves_touch_only_records (fuel : nat) (ctx : Context) (move : string)
    (amt : option Q) (w : World) :
  let g := self w in
  let g' := self (after (try_move_body fuel ctx move amt) w) in
  set_players (players g') g = g'
  /\ turn g' = turn g
  /\ bet g' = bet g
  /\ dict_keys (players g') = dict_keys (players g).
Proof.
  intros g g'.
  assert (Honly : only_records g g')
    by apply (kept_try_move_body only_records).
  destruct (try_move_body_preserves same_seats fuel ctx move amt w)
    as (_ & Hk & _).
  unfold only_records in Honly.
  split; [exact Honly | ].
  rewrite <- Honly. simpl. auto.
Qed.

(** X11. [try_move] returns only to turn a move down.  If the call, entered
    below its first line, returns at all, the game is what it was and the
    channel got exactly one message, one of the five refusals (not a
    participant, not your turn, pointless fold, cannot check, must go
    all-in); every move that gets past the guards ends in an exception. *)
Theorem move_returns_only_when_refused (fuel : nat) (ctx : Context)
    (move : string) (amt : option Q) (w w' : World) (a : unit) :
  try_move_body fuel ctx move amt w = (Returned a, w') ->
  self w' = self w
  /\ exists m, refusal m = true /\ channel w' = channel w ++ [Send m].
Proof.
  intro Hret.
  destruct (try_move_body_cases fuel ctx move amt w)
    as [(m & Hm & Hrej) | [[_ Hfail] | (p & mv & Hp & _ & Hrun)]].
  - rewrite Hrej in Hret. injection Hret as _ <-.
    split; [reflexivity | ]. exists m. auto.
  - rewrite Hret in Hfail. now elim (Hfail a).
  - destruct (perform_then_advance fuel ctx mv amt w p Hp) as [_ Hfail].
    rewrite <- Hrun, Hret in Hfail. now elim (Hfail a).
Qed.

Lemma move_returns_only_when_refused_witness :
  try_move_body 0 (by_ hal) MOVE_CHECK None host_big_blind
  = (Returned tt,
     snd (try_move_body 0 (by_ hal) MOVE_CHECK None host_big_blind))
  /\ self (snd (try_move_body 0 (by_ hal) MOVE_CHECK None host_big_blind))
     = self host_big_blind
  /\ exists m,
       refusal m = true
       /\ channel
            (snd (try_move_body 0 (by_ hal) MOVE_CHECK None host_big_blind))
          = channel host_big_blind ++ [Send m].
Proof.
  assert (Hret : try_move_body 0 (by_ hal) MOVE_CHECK None host_big_blind
                 = (Returned tt,
                    snd (try_move_body 0 (by_ hal) MOVE_CHECK None
                           host_big_blind))).
  { vm_compute. reflexivity. }
  split.
  - exact Hret.
  - exact (move_returns_only_when_refused 0 (by_ hal) MOVE_CHECK None
             host_big_blind _ tt Hret).
Defined.

(** ** What each move does *)

Lemma turn_key_reads (w : World) : turn_key w = (turn_key_of (self w), w).
Proof.
  unfold turn_key_of, turn_key. run.
  destruct (int_mod _ _) as [i | e | ]; run; trivial.
Qed.

Lemma turn_player_of_key (g : PokerGame) (k : Z) (p : PokerPlayer) :
  turn_key_of g = Returned k ->
  dict_get (players g) k = Some p ->
  turn_player_of g = Returned p.
Proof.
  unfold turn_player_of, _turn_player, bind. rewrite turn_key_reads.
  simpl self. intros -> Hk. unfold players_getitem, bind, get. simpl.
  now rewrite Hk.
Qed.

Lemma turn_key_of_set_players (d : dict PokerPlayer) (g : PokerGame) :
  turn_key_of (set_players d g) = turn_key_of g.
Proof.
  unfold turn_key_of, turn_key. run.
  destruct (int_mod _ _) as [i | e | ]; run; trivial.
Qed.

Lemma _turn_player_do_at (f : PokerPlayer -> PokerPlayer) (w : World) (k : Z)
    (p : PokerPlayer) :
  turn_key_of (self w) = Returned k ->
  dict_get (players (self w)) k = Some p ->
  _turn_player_do f w
  = (Returned tt,
     {| self := set_players (dict_update (players (self w)) k f) (self w);
        channel := channel w |}).
Proof.
  intros Hk Hp. unfold _turn_player_do, bind. rewrite turn_key_reads, Hk.
  unfold players_getitem, bind, get. simpl. rewrite Hp. reflexivity.
Qed.

Lemma perform_then_advance_returned (fuel : nat) (ctx : Context)
    (mv : string) (amt : option Q) (w w1 : World) :
  players (self w) <> [] ->
  perform mv amt w = (Returned tt, w1) ->
  (perform mv amt ;; _advance_turn fuel ctx) w = (Raised TypeError, w1).
Proof.
  intros Hne Hperf. unfold bind. rewrite Hperf.
  apply _advance_turn_raises.
  destruct (perform_preserves same_seats mv amt w) as (_ & Hk & _).
  rewrite Hperf in Hk. simpl in Hk.
  intro Hnil. rewrite Hnil in Hk.
  destruct (players (self w)); [contradiction | discriminate].
Qed.

Lemma dict_get_some_nonempty {V : Type} (d : dict V) (k : Z) (v : V) :
  dict_get d k = Some v -> d <> [].
Proof. destruct d; [discriminate | discriminate]. Qed.

(** X12. Entered below its first line (from line 264 on), [try_move] turns
    down a move by anyone but the player whose turn it is and changes
    nothing: with the not-a-participant complaint if the caller's id is not
    in the seating order, with the not-your-turn complaint if it is. *)
Theorem only_the_turn_player_moves (fuel : nat) (ctx : Context)
    (move : string) (amt : option Q) (w : World) (p : PokerPlayer) :
  turn_player_of (self w) = Returned p ->
  id (author ctx) <> discord_id p ->
  try_move_body fuel ctx move amt w
  = rejection
      (if existsb (Z.eqb (id (author ctx))) (players_order (self w))
       then NotYourTurn else NotParticipant) w.
Proof.
  intros Hp Hid. rewrite try_move_body_reads, Hp.
  destruct (existsb (Z.eqb (id (author ctx))) (players_order (self w)));
    cbn [negb]; [ | reflexivity].
  destruct (Z.eqb_spec (id (author ctx)) (discord_id p));
    [contradiction | reflexivity].
Qed.

Lemma only_the_turn_player_moves_witness :
  (turn_player_of (self host_big_blind) = Returned hal_big_blind
   /\ id (author (by_ ann)) <> discord_id hal_big_blind)
  /\ try_move_body 0 (by_ ann) MOVE_CALL None host_big_blind
     = rejection
         (if existsb (Z.eqb (id (author (by_ ann))))
               (players_order (self host_big_blind))
          then NotYourTurn else NotParticipant) host_big_blind.
Proof.
  assert (Hp : turn_player_of (self host_big_blind) = Returned hal_big_blind).
  { vm_compute. reflexivity. }
  assert (Hid : id (author (by_ ann)) <> discord_id hal_big_blind).
  { vm_compute. discriminate. }
  split.
  - split; [exact Hp | exact Hid].
  - exact (only_the_turn_player_moves 0 (by_ ann) MOVE_CALL None
             host_big_blind hal_big_blind Hp Hid).
Defined.

(** X13. Entered below its first line (from line 264 on), [try_move] turns
    down a fold while the table bet is 0: the player whose turn it is gets
    the why-fold answer and nothing changes. *)
Theorem pointless_fold_refused (fuel : nat) (ctx : Context) (amt : option Q)
    (w : World) (p : PokerPlayer) :
  existsb (Z.eqb (id (author ctx))) (players_order (self w)) = true ->
  turn_player_of (self w) = Returned p ->
  id (author ctx) = discord_id p ->
  bet (self w) == 0 ->
  try_move_body fuel ctx MOVE_FOLD amt w = rejection WhyFold w.
Proof.
  intros Hin Hp Hid Hz. apply dec_eqb_spec in Hz.
  rewrite try_move_body_reads, Hin, Hp, Hid, Z.eqb_refl, Hz. reflexivity.
Qed.

Lemma pointless_fold_refused_witness :
  (existsb (Z.eqb (id (author (by_ ann)))) (players_order (self seated_pair))
   = true
   /\ turn_player_of (self seated_pair)
      = Returned (PokerPlayer_init ann 20)
   /\ id (author (by_ ann)) = discord_id (PokerPlayer_init ann 20)
   /\ bet (self seated_pair) == 0)
  /\ try_move_body 0 (by_ ann) MOVE_FOLD None seated_pair
     = rejection WhyFold seated_pair.
Proof.
  split.
  - repeat apply conj; vm_compute; reflexivity.
  - apply (pointless_fold_refused 0 (by_ ann) None seated_pair
             (PokerPlayer_init ann 20)); vm_compute; reflexivity.
Defined.

(** X14. Entered below its first line (from line 264 on), [try_move] on a
    fold at a table bet other than 0 by the player whose turn it is sets that
    player's status to "folded", leaves every other record and every amount
    as it was, announces the fold, and then ends in [TypeError] where the
    turn is to be advanced. *)
Theorem fold_marks_player_folded (fuel : nat) (ctx : Context)
    (amt : option Q) (w : World) (k : Z) (p : PokerPlayer) :
  existsb (Z.eqb (id (author ctx))) (players_order (self w)) = true ->
  turn_key_of (self w) = Returned k ->
  dict_get (players (self w)) k = Some p ->
  id (author ctx) = discord_id p ->
  ~ bet (self w) == 0 ->
  try_move_body fuel ctx MOVE_FOLD amt w
  = (Raised TypeError,
     {| self :=
          set_players
            (dict_update (players (self w)) k (set_status STATUS_FOLDED))
            (self w);
        channel := channel w ++ [Send (HasFolded (name p))] |}).
Proof.
  intros Hin Hk Hrec Hid Hbet.
  pose proof (turn_player_of_key _ _ _ Hk Hrec) as Hp.
  assert (Hz : dec_eqb (bet (self w)) 0 = false).
  { destruct (dec_eqb (bet (self w)) 0) eqn:Hz; trivial.
    apply dec_eqb_spec in Hz. contradiction. }
  rewrite try_move_body_reads, Hin, Hp, Hid, Z.eqb_refl.
  unfold effective_move. rewrite Hz. decide_moves.
  rewrite !andb_false_r. cbn [negb andb]. cbv iota.
  apply perform_then_advance_returned;
    [exact (dict_get_some_nonempty _ _ _ Hrec) | ].
  unfold perform. decide_moves. cbv iota.
  unfold bind. rewrite (_turn_player_do_at _ w k p Hk Hrec).
  rewrite _turn_player_reads. simpl self.
  rewrite (turn_player_of_key _ k (set_status STATUS_FOLDED p)).
  - reflexivity.
  - now rewrite turn_key_of_set_players.
  - simpl. now apply dict_get_update_same.
Qed.

Lemma fold_marks_player_folded_witness :
  (existsb (Z.eqb (id (author (by_ hal))))
     (players_order (self host_big_blind)) = true
   /\ turn_key_of (self host_big_blind) = Returned 1
   /\ dict_get (players (self host_big_blind)) 1 = Some hal_big_blind
   /\ id (author (by_ hal)) = discord_id hal_big_blind
   /\ ~ bet (self host_big_blind) == 0)
  /\ try_move_body 0 (by_ hal) MOVE_FOLD None host_big_blind
     = (Raised TypeError,
        {| self :=
             set_players
               (dict_update (players (self host_big_blind)) 1
                  (set_status STATUS_FOLDED))
               (self host_big_blind);
           channel :=
             channel host_big_blind ++ [Send (HasFolded (name hal_big_blind))]
        |}).
Proof.
  assert (Hbet : ~ bet (self host_big_blind) == 0).
  { intro Hz. vm_compute in Hz. discriminate. }
  split.
  - repeat apply conj; try exact Hbet; vm_compute; reflexivity.
  - apply (fold_marks_player_folded 0 (by_ hal) None host_big_blind 1
             hal_big_blind); try exact Hbet; vm_compute; reflexivity.
Defined.

(** X15. Going all-in, with [try_move] entered below its first line (from
    line 264 on).  For the player whose turn it is, at any table bet, the
    whole stack is moved by [move_in]: the stack becomes the stack minus
    itself and the committed amount the committed amount plus the stack,
    both as the decimal context computes them, and the status becomes
    "all in"; no other record changes; the move is announced with the
    amount, and the call then ends in [TypeError] where the turn is to be
    advanced.  The table bet is left as it was. *)
Theorem all_in_commits_whole_stack (fuel : nat) (ctx : Context)
    (amt : option Q) (w : World) (k : Z) (p : PokerPlayer) :
  existsb (Z.eqb (id (author ctx))) (players_order (self w)) = true ->
  turn_key_of (self w) = Returned k ->
  dict_get (players (self w)) k = Some p ->
  id (author ctx) = discord_id p ->
  let d' :=
    dict_update (dict_update (players (self w)) k (move_in (amount p))) k
      (set_status STATUS_ALL_IN) in
  try_move_body fuel ctx MOVE_ALL_IN amt w
  = (Raised TypeError,
     {| self := set_players d' (self w);
        channel := channel w ++ [Send (WentAllIn (name p) (amount p))] |})
  /\ dict_get d' k
     = Some {| user_object := user_object p;
               amount := dec_sub (amount p) (amount p);
               amount_in := dec_add (amount_in p) (amount p);
               _status := STATUS_ALL_IN |}.
Proof.
  intros Hin Hk Hrec Hid d'.
  pose proof (turn_player_of_key _ _ _ Hk Hrec) as Hp.
  assert (Hrec1 : dict_get (dict_update (players (self w)) k
                              (move_in (amount p))) k
                  = Some (move_in (amount p) p))
    by now apply dict_get_update_same.
  split.
  - rewrite try_move_body_reads, Hin, Hp, Hid, Z.eqb_refl.
    unfold effective_move.
    do 3 (decide_moves; rewrite ?andb_false_r; cbn [negb andb]; cbv iota).
    apply perform_then_advance_returned;
      [exact (dict_get_some_nonempty _ _ _ Hrec) | ].
    unfold perform. decide_moves. cbv iota.
    unfold go_all_in, bind. rewrite _turn_player_reads, Hp.
    rewrite _turn_player_reads, Hp. unfold send, emit.
    rewrite (_turn_player_do_at (move_in (amount p))
               {| self := self w;
                  channel :=
                    channel w ++ [Send (WentAllIn (name p) (amount p))] |}
               k p Hk Hrec).
    simpl self. simpl channel.
    rewrite (_turn_player_do_at (set_status STATUS_ALL_IN) _ k
               (move_in (amount p) p)).
    + reflexivity.
    + simpl self. now rewrite turn_key_of_set_players.
    + exact Hrec1.
  - unfold d'.
    now rewrite (dict_get_update_same _ _ (set_status STATUS_ALL_IN) _ Hrec1).
Qed.

Lemma all_in_commits_whole_stack_witness :
  (existsb (Z.eqb (id (author (by_ hal))))
     (players_order (self host_small_blind)) = true
   /\ turn_key_of (self host_small_blind) = Returned 1
   /\ dict_get (players (self host_small_blind)) 1 = Some hal_small_blind
   /\ id (author (by_ hal)) = discord_id hal_small_blind)
  /\ (let d' :=
        dict_update
          (dict_update (players (self host_small_blind)) 1
             (move_in (amount hal_small_blind))) 1
          (set_status STATUS_ALL_IN) in
      try_move_body 0 (by_ hal) MOVE_ALL_IN None host_small_blind
      = (Raised TypeError,
         {| self := set_players d' (self host_small_blind);
            channel :=
              channel host_small_blind
              ++ [Send (WentAllIn (name hal_small_blind)
                          (amount hal_small_blind))] |})
      /\ dict_get d' 1
         = Some {| user_object := user_object hal_small_blind;
                   amount :=
                     dec_sub (amount hal_small_blind) (amount hal_small_blind);
                   amount_in :=
                     dec_add (amount_in hal_small_blind)
                       (amount hal_small_blind);
                   _status := STATUS_ALL_IN |}).
Proof.
  split.
  - repeat apply conj; vm_compute; reflexivity.
  - apply (all_in_commits_whole_stack 0 (by_ hal) None host_small_blind 1
             hal_small_blind); vm_compute; reflexivity.
Defined.

(** X16. A call that passes the guards, with [try_move] entered below its
    first line (from line 264 on).  At a table bet other than 0 that the
    player's stack and committed amount, added up in the decimal context,
    exceed, a call by the player whose turn it is moves the whole table bet
    from the stack to the committed amount by [move_in], whatever was
    committed before; no other record changes; the call is announced and
    then ends in [TypeError] where the turn is to be advanced. *)
Theorem call_moves_whole_bet (fuel : nat) (ctx : Context) (amt : option Q)
    (w : World) (k : Z) (p : PokerPlayer) :
  existsb (Z.eqb (id (author ctx))) (players_order (self w)) = true ->
  turn_key_of (self w) = Returned k ->
  dict_get (players (self w)) k = Some p ->
  id (author ctx) = discord_id p ->
  ~ bet (self w) == 0 ->
  (bet (self w) < dec_add (amount p) (amount_in p))%Q ->
  try_move_body fuel ctx MOVE_CALL amt w
  = (Raised TypeError,
     {| self :=
          set_players
            (dict_update (players (self w)) k (move_in (bet (self w))))
            (self w);
        channel := channel w ++ [Send (HasCalled (name p))] |}).
Proof.
  intros Hin Hk Hrec Hid Hbet Hfunds.
  pose proof (turn_player_of_key _ _ _ Hk Hrec) as Hp.
  assert (Hturn : _turn_player w = (Returned p, w))
    by now rewrite _turn_player_reads, Hp.
  rewrite (try_move_body_call_or_raise fuel ctx MOVE_CALL amt w p Hin Hturn
             Hid (or_intror (conj eq_refl Hbet))).
  assert (Hle : dec_leb (dec_add (amount p) (amount_in p)) (bet (self w))
                = false).
  { destruct (dec_leb (dec_add (amount p) (amount_in p)) (bet (self w)))
      eqn:Hle;
      trivial.
    apply dec_leb_spec in Hle. now apply Qlt_not_le in Hfunds. }
  rewrite Hle.
  apply perform_then_advance_returned;
    [exact (dict_get_some_nonempty _ _ _ Hrec) | ].
  unfold perform. decide_moves. cbv iota.
  unfold bind, get. rewrite (_turn_player_do_at _ w k p Hk Hrec).
  rewrite _turn_player_reads. simpl self.
  rewrite (turn_player_of_key _ k (move_in (bet (self w)) p)).
  - reflexivity.
  - now rewrite turn_key_of_set_players.
  - simpl. now apply dict_get_update_same.
Qed.

Lemma call_moves_whole_bet_witness :
  (existsb (Z.eqb (id (author (by_ hal))))
     (players_order (self host_big_blind)) = true
   /\ turn_key_of (self host_big_blind) = Returned 1
   /\ dict_get (players (self host_big_blind)) 1 = Some hal_big_blind
   /\ id (author (by_ hal)) = discord_id hal_big_blind
   /\ ~ bet (self host_big_blind) == 0
   /\ (bet (self host_big_blind)
       < dec_add (amount hal_big_blind) (amount_in hal_big_blind))%Q)
  /\ try_move_body 0 (by_ hal) MOVE_CALL None host_big_blind
     = (Raised TypeError,
        {| self :=
             set_players
               (dict_update (players (self host_big_blind)) 1
                  (move_in (bet (self host_big_blind))))
               (self host_big_blind);
           channel :=
             channel host_big_blind ++ [Send (HasCalled (name hal_big_blind))]
        |}).
Proof.
  assert (Hbet : ~ bet (self host_big_blind) == 0).
  { intro Hz. vm_compute in Hz. discriminate. }
  split.
  - repeat apply conj; try exact Hbet; vm_compute; reflexivity.
  - apply (call_moves_whole_bet 0 (by_ hal) None host_big_blind 1
             hal_big_blind); try exact Hbet; vm_compute; reflexivity.
Defined.

(** ** The records and their keys *)

Lemma dict_keys_identities (d : dict PokerPlayer) :
  dict_keys d = map fst (identities d).
Proof.
  unfold dict_keys, identities. rewrite map_map. reflexivity.
Qed.

Lemma stored_under_own_id_identities (d : dict PokerPlayer) :
  stored_under_own_id d
  <-> Forall (fun ku => id (snd ku) = fst ku) (identities d).
Proof.
  unfold stored_under_own_id, identities. rewrite Forall_map. reflexivity.
Qed.

Lemma in_round_call_identities (fuel : nat) (c : Call) (w : World) :
  in_round c -> same_identities (self w) (self (run_call fuel c w)).
Proof.
  apply (kept_in_round_call same_identities); intros v g; reflexivity.
Qed.

Lemma run_call_keyed (fuel : nat) (c : Call) (w : World) :
  NoDup (dict_keys (players (self w)))
  /\ stored_under_own_id (players (self w)) ->
  NoDup (dict_keys (players (self (run_call fuel c w))))
  /\ stored_under_own_id (players (self (run_call fuel c w))).
Proof.
  intros [Hnodup Hown].
  assert (Hround : in_round c ->
            NoDup (dict_keys (players (self (run_call fuel c w))))
            /\ stored_under_own_id (players (self (run_call fuel c w)))).
  { intro Hc. pose proof (in_round_call_identities fuel c w Hc) as Hsame.
    unfold same_identities in Hsame.
    rewrite dict_keys_identities, stored_under_own_id_identities, Hsame.
    rewrite <- dict_keys_identities, <- stored_under_own_id_identities.
    auto. }
  destruct c as [ctx | ctx | ctx mv amt | ctx mv amt]; try (apply Hround; exact I).
  simpl.
  destruct (join_unchanged_or_seated ctx w) as [-> | (_ & Hnew & ->)];
    [auto | ].
  simpl. split.
  - unfold dict_keys. rewrite map_app. simpl.
    apply NoDup_app; [exact Hnodup | repeat constructor; intros [] | ].
    intros k Hin [<- | []].
    apply dict_contains_keys in Hin. congruence.
  - apply Forall_app. split; [exact Hown | ].
    constructor; [reflexivity | constructor].
Qed.

Lemma stored_under_own_id_get (d : dict PokerPlayer) (k : Z)
    (p : PokerPlayer) :
  stored_under_own_id d -> dict_get d k = Some p -> discord_id p = k.
Proof.
  unfold stored_under_own_id.
  induction d as [ | [k' v] r IH]; simpl; intro Hown; [discriminate | ].
  inversion Hown as [ | ? ? Hv Hr]; subst. simpl in Hv.
  destruct (Z.eqb_spec k' k) as [<- | Hne].
  - now intros [= <-].
  - now apply IH.
Qed.

(** X17. The records are keyed by user.  After any calls on a new session
    no id has two records and every record is stored under the id of the
    user it was made for, so that the id compared in the turn guard is the
    id under which the record is found. *)
Theorem records_keyed_by_user (fuel : nat) (cs : list Call) (cur : Currency)
    (h : User) (round_limit : Z) (buy : Q) (t0 : Z) :
  let g := self (run_calls fuel cs (new_session cur h round_limit buy t0)) in
  NoDup (dict_keys (players g))
  /\ (forall k p, dict_get (players g) k = Some p -> discord_id p = k).
Proof.
  intro g.
  assert (Hinv : NoDup (dict_keys (players g))
                 /\ stored_under_own_id (players g)).
  { apply (run_calls_invariant
             (fun g => NoDup (dict_keys (players g))
                       /\ stored_under_own_id (players g))).
    - intros c w. apply run_call_keyed.
    - split; constructor. }
  destruct Hinv as [Hnodup Hown]. split; [exact Hnodup | ].
  intros k p. now apply stored_under_own_id_get.
Qed.

(** ** [try_move] and [_advance_turn] as they stand *)

(** X18. Nothing can be done through [try_move].  Every call raises
    [AttributeError] at its first line and leaves the game and the channel
    untouched, so a sequence of calls has the effect of the same sequence
    with its [try_move] calls left out. *)
Theorem try_move_is_inert (fuel : nat) (cs : list Call) (w : World) :
  (forall ctx move amt w0,
     try_move fuel ctx move amt w0 = (Raised AttributeError, w0))
  /\ run_calls fuel cs w
     = run_calls fuel (filter (fun c => negb (is_try_move c)) cs) w.
Proof.
  split; [reflexivity | ].
  unfold run_calls. revert w.
  induction cs as [ | c cs IH]; intro w; simpl; trivial.
  destruct c as [ctx | ctx | ctx mv amt | ctx mv amt]; simpl; apply IH.
Qed.

(** X19. [_advance_turn] never completes.  In every game it ends in an
    exception, whatever the iteration budget of its loop; when there is at
    least one record the exception is the [TypeError] of [num_folded] and
    nothing, the turn included, has changed. *)
Theorem advance_turn_never_completes (fuel : nat) (ctx : Context)
    (w : World) :
  (exists e, fst (_advance_turn fuel ctx w) = Raised e)
  /\ (players (self w) = []
      \/ _advance_turn fuel ctx w = (Raised TypeError, w)).
Proof.
  split.
  - destruct (players (self w)) as [ | kp r] eqn:Hp.
    + unfold _advance_turn, _get_fold_winner, num_folded. run. rewrite Hp.
      run.
      assert (Hskip : forall w0, players (self w0) = [] ->
                exists e, fst (skip_waiting fuel w0) = Raised e).
      { intros w0 Hnil.
        assert (Hturn : forall p, turn_player_of (self w0) <> Returned p).
        { intros p Hq. apply (_turn_player_found w0 w0 p); [ | exact Hnil].
          now rewrite _turn_player_reads, Hq. }
        assert (Hnever : turn_player_of (self w0) <> Unfinished).
        { unfold turn_player_of, _turn_player, turn_key. run.
          unfold int_mod, list_getitem.
          destruct (_ =? 0); run; [discriminate | ].
          destruct (_ || _); run; [discriminate | ].
          destruct (nth_error _ _); run; [ | discriminate].
          rewrite Hnil. discriminate. }
        destruct fuel; simpl; unfold bind; rewrite _turn_player_reads;
          destruct (turn_player_of (self w0)) as [p | e | ]; simpl;
          try (now elim (Hturn p)); try (now elim Hnever); eauto. }
      destruct (Hskip {| self := set_turn (turn (self w) + 1) (self w);
                         channel := channel w |} Hp) as [e He].
      destruct (_ <? _); run;
        destruct (skip_waiting fuel _) as [[b | e' | ] w'];
        simpl in *; try discriminate; eauto.
    + exists TypeError. rewrite _advance_turn_raises; [reflexivity | ].
      now rewrite Hp.
  - destruct (players (self w)) as [ | kp r] eqn:Hp; [now left | right].
    apply _advance_turn_raises. now rewrite Hp.
Qed.

(** ** The loop of [_advance_turn] *)

Lemma list_getitem_mod {A : Type} (l : list A) (t : Z) :
  l <> [] ->
  exists x,
    list_getitem l (t mod Z.of_nat (List.length l)) = Returned x /\ In x l.
Proof.
  intro Hne.
  assert (Hlen : 0 < Z.of_nat (List.length l)).
  { destruct l; [contradiction | simpl; lia]. }
  pose proof (Z.mod_pos_bound t _ Hlen) as [Hlo Hhi].
  unfold list_getitem.
  set (j := t mod Z.of_nat (List.length l)) in *.
  assert (Hlt : (j <? 0) = false) by (apply Z.ltb_ge; lia).
  assert (Hle : (Z.of_nat (List.length l) <=? j) = false)
    by (apply Z.leb_gt; lia).
  cbv zeta. rewrite Hlt. cbv iota. rewrite Hlt, Hle. simpl.
  destruct (nth_error l (Z.to_nat j)) as [x | ] eqn:Hx.
  - exists x. split; [reflexivity | ]. eapply nth_error_In. exact Hx.
  - apply nth_error_None in Hx. lia.
Qed.

Lemma waiting_turn_player (g : PokerGame) :
  players_order g <> [] ->
  (forall k, In k (players_order g) ->
     exists p, dict_get (players g) k = Some p /\ waiting p = true) ->
  exists p, turn_player_of g = Returned p /\ waiting p = true.
Proof.
  intros Hne Hall.
  destruct (list_getitem_mod (players_order g) (turn g) Hne)
    as (k & Hk & Hin).
  destruct (Hall k Hin) as (p & Hp & Hw).
  exists p. split; [ | exact Hw].
  apply (turn_player_of_key g k p); [ | exact Hp].
  unfold turn_key_of, turn_key. run. unfold int_mod.
  destruct (Z.eqb_spec (Z.of_nat (List.length (players_order g))) 0)
    as [Hz | Hz].
  - destruct (players_order g); [contradiction | simpl in Hz; lia].
  - run. now rewrite Hk.
Qed.

(** X20. The loop of [_advance_turn] has no way out when nobody can act.
    If every seat has a record and every record is folded or all-in, the
    loop is still running after any number of iterations: each one
    announces a waiting player and moves the turn on. *)
Theorem skip_loop_never_ends (fuel : nat) (w : World) :
  players_order (self w) <> [] ->
  (forall k, In k (players_order (self w)) ->
     exists p, dict_get (players (self w)) k = Some p /\ waiting p = true) ->
  fst (skip_waiting fuel w) = Unfinished
  /\ List.length (channel (snd (skip_waiting fuel w)))
     = (List.length (channel w) + fuel)%nat
  /\ turn (self (snd (skip_waiting fuel w))) = turn (self w) + Z.of_nat fuel.
Proof.
  revert w. induction fuel as [ | fuel IH]; intros w Hne Hall;
    destruct (waiting_turn_player (self w) Hne Hall) as (p & Hp & Hw);
    unfold waiting in Hw; simpl skip_waiting; unfold bind;
    rewrite _turn_player_reads, Hp; cbv beta iota; rewrite Hw.
  - simpl. repeat split; lia.
  - rewrite _turn_player_reads, Hp. cbv beta iota.
    rewrite _turn_player_reads, Hp. cbv beta iota.
    unfold send, emit, modify. cbv beta iota. cbn [self channel].
    set (w2 := {| self := set_turn (turn (self w) + 1) (self w);
                  channel := channel w ++ [Send (IsStatus (name p) (status p))]
               |}).
    destruct (IH w2 Hne Hall) as (Hout & Hlen & Hturn).
    destruct (skip_waiting fuel w2) as [o w3]. simpl in *.
    split; [exact Hout | ]. split.
    + rewrite Hlen, length_app. simpl. lia.
    + rewrite Hturn. lia.
Qed.

Lemma skip_loop_never_ends_witness :
  (players_order (self everyone_waiting) <> []
   /\ forall k, In k (players_order (self everyone_waiting)) ->
        exists p,
          dict_get (players (self everyone_waiting)) k = Some p
          /\ waiting p = true)
  /\ fst (skip_waiting 5 everyone_waiting) = Unfinished
  /\ List.length (channel (snd (skip_waiting 5 everyone_waiting)))
     = (List.length (channel everyone_waiting) + 5)%nat
  /\ turn (self (snd (skip_waiting 5 everyone_waiting)))
     = turn (self everyone_waiting) + Z.of_nat 5.
Proof.
  assert (Hne : players_order (self everyone_waiting) <> []).
  { vm_compute. discriminate. }
  assert (Hall : forall k, In k (players_order (self everyone_waiting)) ->
            exists p,
              dict_get (players (self everyone_waiting)) k = Some p
              /\ waiting p = true).
  { intros k Hin. vm_compute in Hin.
    destruct Hin as [<- | [<- | [<- | []]]];
      eexists; split; vm_compute; reflexivity. }
  split.
  - split; [exact Hne | exact Hall].
  - exact (skip_loop_never_ends 5 everyone_waiting Hne Hall).
Defined.

(** ** The stage, in general *)

Lemma count_none_dealt (slots : list (option Card)) :
  count_none slots + count_dealt slots = Z.of_nat (List.length slots).
Proof.
  unfold count_none, count_dealt.
  induction slots as [ | [c | ] r IH]; simpl List.length; simpl filter;
    simpl List.length; lia.
Qed.

(** X21. The stage as a function of the cards dealt.  On a board of five
    slots [stage] depends on the number of dealt cards alone and only reads
    the game: with 0 cards dealt it answers 3, with 1 card 2, with 2 cards
    1 and with 5 cards 0; with 3 or 4 cards dealt, the flop and the turn, it
    raises [ValueError]. *)
Theorem stage_by_cards_dealt (w : World) :
  List.length (_in_play (self w)) = 5%nat ->
  stage w
  = (match count_dealt (_in_play (self w)) with
     | 0 => Returned 3
     | 1 => Returned 2
     | 2 => Returned 1
     | 5 => Returned 0
     | _ => Raised ValueError
     end, w).
Proof.
  intro Hlen. rewrite stage_reads.
  pose proof (count_none_dealt (_in_play (self w))) as Hsum.
  rewrite Hlen in Hsum.
  assert (Hlo : 0 <= count_none (_in_play (self w)))
    by (unfold count_none; lia).
  assert (Hd : 0 <= count_dealt (_in_play (self w)))
    by (unfold count_dealt; lia).
  set (d := count_dealt (_in_play (self w))) in *.
  replace (count_none (_in_play (self w))) with (5 - d) by lia.
  assert (Hcases : d = 0 \/ d = 1 \/ d = 2 \/ d = 3 \/ d = 4 \/ d = 5)
    by lia.
  destruct Hcases as [-> | [-> | [-> | [-> | [-> | ->]]]]]; reflexivity.
Qed.

Lemma stage_by_cards_dealt_witness :
  List.length (_in_play (self flop_dealt)) = 5%nat
  /\ stage flop_dealt
     = (match count_dealt (_in_play (self flop_dealt)) with
        | 0 => Returned 3
        | 1 => Returned 2
        | 2 => Returned 1
        | 5 => Returned 0
        | _ => Raised ValueError
        end, flop_dealt).
Proof.
  split.
  - reflexivity.
  - apply (stage_by_cards_dealt flop_dealt). reflexivity.
Defined.

(** ** What a start that finds both blind seats does *)

Lemma dict_get_update_other {V : Type} (d : dict V) (k k' : Z) (f : V -> V) :
  k <> k' -> dict_get (dict_update d k f) k' = dict_get d k'.
Proof.
  intro Hne.
  induction d as [ | [k0 v] r IH]; simpl; trivial.
  destruct (Z.eqb_spec k0 k) as [-> | Hk]; simpl.
  - destruct (Z.eqb_spec k k'); [contradiction | reflexivity].
  - destruct (k0 =? k'); [reflexivity | exact IH].
Qed.

Lemma dict_contains_update {V : Type} (d : dict V) (k k' : Z) (f : V -> V) :
  dict_contains (dict_update d k f) k' = dict_contains d k'.
Proof.
  destruct (dict_contains d k') eqn:Hd.
  - apply dict_contains_keys. rewrite dict_keys_update.
    now apply dict_contains_keys.
  - destruct (dict_contains (dict_update d k f) k') eqn:Hu; trivial.
    apply dict_contains_keys in Hu. rewrite dict_keys_update in Hu.
    apply dict_contains_keys in Hu. congruence.
Qed.

Lemma _print_game_screen_only_reads (ctx : Context) (w : World) :
  self (snd (_print_game_screen ctx w)) = self w.
Proof.
  unfold _print_game_screen, _dealer_player, _small_blind_player,
    _big_blind_player. run.
  repeat (match goal with
          | |- context [match list_getitem ?l ?i with _ => _ end] =>
              destruct (list_getitem l i)
          | |- context [match dict_get ?d ?k with _ => _ end] =>
              destruct (dict_get d k)
          end; run; trivial).
  rewrite _turn_player_reads.
  destruct (turn_player_of (self w)); reflexivity.
Qed.

Lemma start_posts_blinds_eq (ctx : Context) (w : World) (k1 k2 : Z)
    (p1 : PokerPlayer) :
  ongoing_round (self w) = false ->
  id (author ctx) = id (host (self w)) ->
  3 <= Z.of_nat (List.length (players_order (self w))) ->
  list_getitem (players_order (self w)) (small_blind (self w)) = Returned k1 ->
  list_getitem (players_order (self w)) (big_blind (self w)) = Returned k2 ->
  dict_get (players (self w)) k1 = Some p1 ->
  dict_contains (players (self w)) k2 = true ->
  start ctx w
  = _print_game_screen ctx
      {| self := started ctx (self w) k1 k2; channel := channel w |}.
Proof.
  intros Hround Hhost Hlen Hk1 Hk2 Hp1 Hin2.
  rewrite start_reads, Hround, Hhost, Z.eqb_refl. cbn [negb].
  assert (Hlt : (Z.of_nat (List.length (players_order (self w))) <? 3)
                = false) by (apply Z.ltb_ge; lia).
  rewrite Hlt. unfold started.
  set (board := _print_game_screen ctx).
  unfold post_blinds, _small_blind_player_do, _big_blind_player_do, mutate.
  run. rewrite Hk1. run. rewrite Hp1. run. rewrite Hk2. run.
  assert (Hin2' : dict_contains
                    (dict_update (players (self w)) k1
                       (move_in (dec_div (_blind (self w)) 2))) k2 = true)
    by now rewrite dict_contains_update.
  unfold dict_contains in Hin2'.
  destruct (dict_get _ k2) as [p2 | ]; [ | discriminate]. run.
  unfold int_mod.
  destruct (Z.eqb_spec (Z.of_nat (List.length (players_order (self w)))) 0);
    [lia | ].
  reflexivity.
Qed.

(** X22. A start that finds both blind seats.  No round is going on, the
    host calls [start], the seating order has at least 3 entries, and the
    seats at the small-blind and big-blind indices hold two different ids
    with records: then the flags are set and the timeout bumped, the small
    blind's record has moved half the blind and the big blind's record the
    whole blind from stack to committed, no other record has changed, the
    table bet is the blind, and the turn is on the index after the big
    blind, wrapped around the seating order; the call ends the way printing
    the board on that game ends. *)
Theorem start_posts_blinds (ctx : Context) (w : World) (k1 k2 : Z)
    (p1 p2 : PokerPlayer) :
  ongoing_round (self w) = false ->
  id (author ctx) = id (host (self w)) ->
  3 <= Z.of_nat (List.length (players_order (self w))) ->
  list_getitem (players_order (self w)) (small_blind (self w)) = Returned k1 ->
  list_getitem (players_order (self w)) (big_blind (self w)) = Returned k2 ->
  dict_get (players (self w)) k1 = Some p1 ->
  dict_get (players (self w)) k2 = Some p2 ->
  k1 <> k2 ->
  let w' := after (start ctx) w in
  self w' = started ctx (self w) k1 k2
  /\ dict_get (players (self w')) k1
     = Some (move_in (dec_div (_blind (self w)) 2) p1)
  /\ dict_get (players (self w')) k2 = Some (move_in (_blind (self w)) p2)
  /\ (forall k, k <> k1 -> k <> k2 ->
        dict_get (players (self w')) k = dict_get (players (self w)) k)
  /\ bet (self w') = _blind (self w)
  /\ turn (self w')
     = (big_blind (self w) + 1)
       mod Z.of_nat (List.length (players_order (self w)))
  /\ fst (start ctx w)
     = fst (_print_game_screen ctx
              {| self := started ctx (self w) k1 k2; channel := channel w |}).
Proof.
  intros Hround Hhost Hlen Hk1 Hk2 Hp1 Hp2 Hne w'.
  assert (Hin2 : dict_contains (players (self w)) k2 = true)
    by (unfold dict_contains; now rewrite Hp2).
  pose proof (start_posts_blinds_eq ctx w k1 k2 p1 Hround Hhost Hlen Hk1 Hk2
                Hp1 Hin2) as Heq.
  assert (Hself : self w' = started ctx (self w) k1 k2).
  { unfold w', after. rewrite Heq.
    now rewrite _print_game_screen_only_reads. }
  rewrite Hself, Heq. unfold started. simpl.
  repeat split; trivial.
  - rewrite dict_get_update_other by (intro; apply Hne; congruence).
    now apply dict_get_update_same.
  - apply dict_get_update_same.
    now rewrite dict_get_update_other by exact Hne.
  - intros k Hk1' Hk2'.
    rewrite !dict_get_update_other by (intro; congruence). reflexivity.
Qed.

Lemma start_posts_blinds_witness :
  (ongoing_round (self seated_pair) = false
   /\ id (author (by_ hal)) = id (host (self seated_pair))
   /\ 3 <= Z.of_nat (List.length (players_order (self seated_pair)))
   /\ list_getitem (players_order (self seated_pair))
        (small_blind (self seated_pair)) = Returned 1
   /\ list_getitem (players_order (self seated_pair))
        (big_blind (self seated_pair)) = Returned 2
   /\ dict_get (players (self seated_pair)) 1
      = Some (PokerPlayer_init hal 20)
   /\ dict_get (players (self seated_pair)) 2
      = Some (PokerPlayer_init ann 20)
   /\ 1 <> 2)
  /\ (let w' := after (start (by_ hal)) seated_pair in
      self w' = started (by_ hal) (self seated_pair) 1 2
      /\ dict_get (players (self w')) 1
         = Some (move_in (dec_div (_blind (self seated_pair)) 2)
                   (PokerPlayer_init hal 20))
      /\ dict_get (players (self w')) 2
         = Some (move_in (_blind (self seated_pair))
                   (PokerPlayer_init ann 20))
      /\ (forall k, k <> 1 -> k <> 2 ->
            dict_get (players (self w')) k
            = dict_get (players (self seated_pair)) k)
      /\ bet (self w') = _blind (self seated_pair)
      /\ turn (self w')
         = (big_blind (self seated_pair) + 1)
           mod Z.of_nat (List.length (players_order (self seated_pair)))
      /\ fst (start (by_ hal) seated_pair)
         = fst (_print_game_screen (by_ hal)
                  {| self := started (by_ hal) (self seated_pair) 1 2;
                     channel := channel seated_pair |})).
Proof.
  assert (Hne : 1 <> 2) by discriminate.
  assert (Hlen : 3 <= Z.of_nat (List.length (players_order (self seated_pair)))).
  { vm_compute. discriminate. }
  split.
  - repeat apply conj; try exact Hne; try exact Hlen; vm_compute; reflexivity.
  - apply (start_posts_blinds (by_ hal) seated_pair 1 2
             (PokerPlayer_init hal 20) (PokerPlayer_init ann 20));
      try exact Hne; try exact Hlen; vm_compute; reflexivity.
Defined.

(** X23. A host who has not joined cannot start cleanly.  Under the
    conditions of a start that finds both blind seats, if the dealer's seat
    holds an id without a record — the host's, unless the host joined —
    the call ends in [KeyError] where the board is printed, with nothing
    sent, after the round has been marked as started and the blinds have
    been posted. *)
Theorem start_needs_dealer_record (ctx : Context) (w : World) (k0 k1 k2 : Z)
    (p1 : PokerPlayer) :
  ongoing_round (self w) = false ->
  id (author ctx) = id (host (self w)) ->
  3 <= Z.of_nat (List.length (players_order (self w))) ->
  list_getitem (players_order (self w)) (small_blind (self w)) = Returned k1 ->
  list_getitem (players_order (self w)) (big_blind (self w)) = Returned k2 ->
  dict_get (players (self w)) k1 = Some p1 ->
  dict_contains (players (self w)) k2 = true ->
  list_getitem (players_order (self w)) (dealer (self w)) = Returned k0 ->
  dict_contains (players (self w)) k0 = false ->
  start ctx w
  = (Raised KeyError,
     {| self := started ctx (self w) k1 k2; channel := channel w |}).
Proof.
  intros Hround Hhost Hlen Hk1 Hk2 Hp1 Hin2 Hk0 Hout.
  rewrite (start_posts_blinds_eq ctx w k1 k2 p1 Hround Hhost Hlen Hk1 Hk2
             Hp1 Hin2).
  assert (Hout' : dict_contains (players (started ctx (self w) k1 k2)) k0
                  = false)
    by (unfold started; simpl; now rewrite !dict_contains_update).
  unfold dict_contains, started in Hout'. simpl in Hout'.
  unfold _print_game_screen, _dealer_player. run.
  rewrite Hk0. run.
  match type of Hout' with
  | context [dict_get ?d ?k] => destruct (dict_get d k)
  end; [discriminate | reflexivity].
Qed.

Lemma start_needs_dealer_record_witness :
  (ongoing_round (self two_joined) = false
   /\ id (author (by_ hal)) = id (host (self two_joined))
   /\ 3 <= Z.of_nat (List.length (players_order (self two_joined)))
   /\ list_getitem (players_order (self two_joined))
        (small_blind (self two_joined)) = Returned 2
   /\ list_getitem (players_order (self two_joined))
        (big_blind (self two_joined)) = Returned 3
   /\ dict_get (players (self two_joined)) 2 = Some (PokerPlayer_init ann 20)
   /\ dict_contains (players (self two_joined)) 3 = true
   /\ list_getitem (players_order (self two_joined))
        (dealer (self two_joined)) = Returned 1
   /\ dict_contains (players (self two_joined)) 1 = false)
  /\ start (by_ hal) two_joined
     = (Raised KeyError,
        {| self := started (by_ hal) (self two_joined) 2 3;
           channel := channel two_joined |}).
Proof.
  assert (Hlen : 3 <= Z.of_nat (List.length (players_order (self two_joined)))).
  { vm_compute. discriminate. }
  split.
  - repeat apply conj; try exact Hlen; vm_compute; reflexivity.
  - apply (start_needs_dealer_record (by_ hal) two_joined 1 2 3
             (PokerPlayer_init ann 20));
      try exact Hlen; vm_compute; reflexivity.
Defined.

(** ** Cancelling *)

#[export] Instance same_time_frame : RecordFrame same_time.
Proof. split; unfold same_time; intros; simpl; congruence. Qed.

(** X24. Cancelling works by timeout only.  [attempt_cancel] returns [True],
    with the timeout notice, exactly when more than ten minutes have passed
    since [_time_started]; in every other case it raises [NameError] for the
    unbound name [host] and sends nothing, for the host as for anyone else:
    it never returns [False] and never sends the host-only complaint. *)
Theorem cancel_only_by_timeout (ctx : Context) (g : PokerGame) :
  (attempt_cancel ctx g = (CancelReturned true, [CancelledByTimeout])
   <-> _time_started g + 600000000 < now ctx)
  /\ (attempt_cancel ctx g = (CancelNameError "host", [])
      <-> now ctx <= _time_started g + 600000000)
  /\ fst (attempt_cancel ctx g) <> CancelReturned false
  /\ ~ In MustBeHostToCancel (snd (attempt_cancel ctx g)).
Proof.
  unfold attempt_cancel, timedelta_minutes, TIMEOUT_MINUTES, global_name.
  destruct (Z.ltb_spec (_time_started g) (now ctx - 10 * 60000000));
    simpl; repeat split; try discriminate; try lia; try tauto;
    intros [Hm | []]; discriminate.
Qed.

Lemma start_sets_time (ctx : Context) (w : World) :
  ongoing_round (self w) = false ->
  id (author ctx) = id (host (self w)) ->
  _time_started (self (after (start ctx) w)) = now ctx.
Proof.
  intros Hround Hhost. unfold after.
  rewrite start_reads, Hround, Hhost, Z.eqb_refl. cbn [negb].
  change (post_blinds ctx)
    with (modify (set_time_started (now ctx)) ;; blinds_and_board ctx).
  assert (Hkept : forall w0,
            _time_started (self (snd (blinds_and_board ctx w0)))
            = _time_started (self w0)).
  { intro w0.
    apply (kept_blinds_and_board same_time ctx); intros v g; reflexivity. }
  destruct (_ <? 3); unfold bind, send, emit, ret, modify; cbv beta iota;
    rewrite Hkept; reflexivity.
Qed.

Lemma run_call_same_time (fuel : nat) (c : Call) (w : World) :
  ongoing_round (self w) = true ->
  _time_started (self (run_call fuel c w)) = _time_started (self w).
Proof.
  intro Hround.
  destruct c as [ctx | ctx | ctx mv amt | ctx mv amt]; simpl.
  - destruct (join_unchanged_or_seated ctx w) as [-> | (_ & _ & ->)];
      reflexivity.
  - unfold after. rewrite start_reads, Hround. reflexivity.
  - reflexivity.
  - apply (kept_try_move_body same_time).
Qed.

(** X25. A start bumps the timeout for good.  If no round is going on and
    the host calls [start], then, however that call ended and whatever calls
    follow, [_time_started] is the time of that call: from then on
    [attempt_cancel] returns [True] exactly when called more than ten
    minutes after the start, and raises [NameError] otherwise. *)
Theorem start_bumps_timeout (fuel : nat) (cs : list Call)
    (ctx ctx' : Context) (w : World) :
  ongoing_round (self w) = false ->
  id (author ctx) = id (host (self w)) ->
  let g' := self (run_calls fuel cs (after (start ctx) w)) in
  _time_started g' = now ctx
  /\ attempt_cancel ctx' g'
     = if now ctx + 600000000 <? now ctx'
       then (CancelReturned true, [CancelledByTimeout])
       else (CancelNameError "host", []).
Proof.
  intros Hround Hhost g'.
  assert (Htime : _time_started g' = now ctx).
  { destruct (start_marks_round_started ctx w Hround Hhost) as [_ Hr].
    assert (Hinv : ongoing_round g' = true /\ _time_started g' = now ctx).
    { apply (run_calls_invariant
               (fun g => ongoing_round g = true /\ _time_started g = now ctx)).
      - intros c w0 [Hr0 Ht0]. split.
        + now apply run_call_keeps_flags_up.
        + now rewrite run_call_same_time.
      - split; [exact Hr | now apply start_sets_time]. }
    apply Hinv. }
  split; [exact Htime | ].
  unfold attempt_cancel, timedelta_minutes, TIMEOUT_MINUTES, global_name.
  rewrite Htime.
  destruct (Z.ltb_spec (now ctx) (now ctx' - 10 * 60000000));
    destruct (Z.ltb_spec (now ctx + 600000000) (now ctx'));
    try reflexivity; lia.
Qed.

Lemma start_bumps_timeout_witness :
  (ongoing_round (self fresh) = false
   /\ id (author (by_ hal)) = id (host (self fresh)))
  /\ (let g' :=
        self (run_calls 1 [Join (by_ ann)] (after (start (by_ hal)) fresh)) in
      _time_started g' = now (by_ hal)
      /\ attempt_cancel (by_ hal) g'
         = if now (by_ hal) + 600000000 <? now (by_ hal)
           then (CancelReturned true, [CancelledByTimeout])
           else (CancelNameError "host", [])).
Proof.
  split.
  - split; reflexivity.
  - apply (start_bumps_timeout 1 [Join (by_ ann)] (by_ hal) (by_ hal) fresh);
      reflexivity.
Defined.

(** ** Whose turn it is before the round starts *)

(** X26. Before any start the turn is on the last seat.  A game whose
    [turn] is still the initial -1 has the index wrap around to the end of
    the seating order, so the player whose turn it is is the one who joined
    last. *)
Theorem turn_before_start_is_last_seat (g : PokerGame) (seats : list Z)
    (k : Z) :
  turn g = -1 ->
  players_order g = seats ++ [k] ->
  turn_key_of g = Returned k
  /\ turn_player_of g
     = match dict_get (players g) k with
       | Some p => Returned p
       | None => Raised KeyError
       end.
Proof.
  intros Hturn Horder.
  assert (Hkey : turn_key_of g = Returned k).
  { unfold turn_key_of, turn_key. run. rewrite Hturn, Horder.
    rewrite length_app. simpl List.length.
    unfold int_mod.
    destruct (Z.eqb_spec (Z.of_nat (List.length seats + 1)) 0); [lia | ].
    run.
    replace (-1 mod Z.of_nat (List.length seats + 1))
      with (Z.of_nat (List.length seats)).
    2: { apply Z.mod_unique with (q := -1); lia. }
    unfold list_getitem. rewrite length_app. simpl List.length. cbv zeta.
    assert (Hlt : (Z.of_nat (List.length seats) <? 0) = false)
      by (apply Z.ltb_ge; lia).
    assert (Hle : (Z.of_nat (List.length seats + 1)
                   <=? Z.of_nat (List.length seats)) = false)
      by (apply Z.leb_gt; lia).
    rewrite Hlt. cbv iota. rewrite Hlt, Hle. simpl orb. cbv iota.
    rewrite Nat2Z.id, nth_error_app2 by lia.
    rewrite Nat.sub_diag. reflexivity. }
  split; [exact Hkey | ].
  destruct (dict_get (players g) k) as [p | ] eqn:Hp.
  - now apply (turn_player_of_key g k p).
  - unfold turn_player_of, _turn_player, bind. rewrite turn_key_reads.
    simpl self. rewrite Hkey. unfold players_getitem, bind, get. simpl.
    now rewrite Hp.
Qed.

Lemma turn_before_start_is_last_seat_witness :
  (turn (self seated_pair) = -1
   /\ players_order (self seated_pair) = [1; 1] ++ [2])
  /\ turn_key_of (self seated_pair) = Returned 2
  /\ turn_player_of (self seated_pair)
     = match dict_get (players (self seated_pair)) 2 with
       | Some p => Returned p
       | None => Raised KeyError
       end.
Proof.
  split.
  - split; reflexivity.
  - apply (turn_before_start_is_last_seat (self seated_pair) [1; 1] 2);
      reflexivity.
Defined.

(** ** What a call does to the records *)












(** ** Chip conservation *)






(** ** What every player holds *)





#[export] Instance same_buy_in_frame : RoundFrame same_buy_in.
Proof. split; unfold same_buy_in; intros; simpl; congruence. Qed.





(** ** The host's seat and the minimum of [start] *)

Lemma says_quiet {A : Type} (P : Event -> Prop) (m : M A) :
  (forall w, channel (snd (m w)) = channel w) -> says_only P m.
Proof.
  intros Hm w. exists []. rewrite Hm, app_nil_r.
  split; [reflexivity | constructor].
Qed.

Lemma says_emit (P : Event -> Prop) (e : Event) : P e -> says_only P (emit e).
Proof.
  intros He w. exists [e]. split; [reflexivity | repeat constructor; exact He].
Qed.

Lemma says_bind {A B : Type} (P : Event -> Prop) (m : M A) (k : A -> M B) :
  says_only P m -> (forall a, says_only P (k a)) -> says_only P (bind m k).
Proof.
  intros Hm Hk w. unfold bind.
  destruct (Hm w) as (evs & Hch & Hevs).
  destruct (m w) as [[a | e | ] w']; simpl in *;
    try (exists evs; split; assumption).
  destruct (Hk a w') as (evs' & Hch' & Hevs').
  exists (evs ++ evs'). split.
  - now rewrite Hch', Hch, app_assoc.
  - apply Forall_app. split; assumption.
Qed.

Ltac says_walk :=
  cbv beta zeta;
  repeat first
    [ assumption
    | apply says_quiet; reflexivity
    | apply says_emit; unfold no_complaint; discriminate
    | apply says_bind; [ | intro ]
    | match goal with
      | |- says_only _ (if ?b then _ else _) => destruct b
      | |- says_only _ (match ?x with _ => _ end) => destruct x
      end ].

Lemma _turn_player_says : says_only no_complaint _turn_player.
Proof.
  apply says_quiet. intro w. now rewrite _turn_player_reads.
Qed.

Lemma _print_game_screen_says (ctx : Context) :
  says_only no_complaint (_print_game_screen ctx).
Proof.
  pose proof _turn_player_says.
  unfold _print_game_screen, _dealer_player, _small_blind_player,
    _big_blind_player, players_order_getitem, players_getitem, send.
  says_walk.
Qed.

(** Past its guards [start] sends nothing but the board. *)
Lemma start_goes_on_says (ctx : Context) :
  says_only no_complaint
    (modify (set_ongoing_game true) ;;
     modify (set_ongoing_round true) ;;
     post_blinds ctx).
Proof.
  pose proof (_print_game_screen_says ctx).
  unfold post_blinds, _small_blind_player_do, _big_blind_player_do,
    players_order_getitem, players_getitem, mutate.
  says_walk.
Qed.

Lemma skipn_sent {A : Type} (l r : list A) : skipn (List.length l) (l ++ r) = r.
Proof. induction l as [ | x l IH]; simpl; trivial. Qed.

(** When [start] complains about the number of players. *)
Lemma start_complains (ctx : Context) (w : World) :
  In (Send NeedThreePlayers) (sent_by (start ctx) w)
  <-> ongoing_round (self w) = false
      /\ id (author ctx) = id (host (self w))
      /\ Z.of_nat (List.length (players_order (self w))) < 3.
Proof.
  unfold sent_by. rewrite start_reads.
  destruct (ongoing_round (self w)).
  { unfold rejection. simpl channel. rewrite skipn_sent. simpl.
    split; [intros [Hm | []]; discriminate | intros [Hr _]; discriminate]. }
  destruct (Z.eqb_spec (id (author ctx)) (id (host (self w)))) as [Hh | Hh];
    cbn [negb].
  2: { unfold rejection. simpl channel. rewrite skipn_sent. simpl.
       split; [intros [Hm | []]; discriminate | intros (_ & Hh' & _)];
         contradiction. }
  unfold bind at 1.
  destruct (Z.ltb_spec (Z.of_nat (List.length (players_order (self w)))) 3)
    as [Hlt | Hge].
  - unfold send, emit. cbv beta iota.
    match goal with
    | |- context [snd (?m ?w1)] =>
        destruct (start_goes_on_says ctx w1) as (evs & -> & _)
    end.
    simpl channel. rewrite <- app_assoc, skipn_sent.
    split; [auto | intros _; now left].
  - unfold ret. cbv beta iota.
    destruct (start_goes_on_says ctx w) as (evs & -> & Hevs).
    rewrite skipn_sent.
    split; [ | intros (_ & _ & Hlt); lia].
    intro Hin. rewrite Forall_forall in Hevs.
    now elim (Hevs _ Hin).
Qed.

(** C10. A new session has the host's id as the only entry of
    [players_order] and no record in [players].  After any calls the seating
    order is the host's id followed by the joined ids.  The host's seat
    counts towards the minimum of [start]: a [start] that gets past its
    first two guards complains about too few players exactly when fewer than
    2 users have joined.  And every id of [players_order] has a record
    exactly when the host has one, that is, has joined. *)
Theorem host_seated_without_record (fuel : nat) (cs : list Call)
    (cur : Currency) (h : User) (round_limit : Z) (buy : Q) (t0 : Z) :
  let g0 := PokerGame_init cur h round_limit buy t0 in
  let w := run_calls fuel cs (new_session cur h round_limit buy t0) in
  let g := self w in
  (players_order g0 = [id h] /\ players g0 = [])
  /\ players_order g = id h :: dict_keys (players g)
  /\ (forall ctx,
        In (Send NeedThreePlayers) (sent_by (start ctx) w)
        <-> ongoing_round g = false
            /\ id (author ctx) = id h
            /\ (List.length (players g) < 2)%nat)
  /\ (every_seat_has_record g <-> dict_contains (players g) (id h) = true).
Proof.
  intros g0 w g.
  destruct (host_leads_after_calls fuel cs cur h round_limit buy t0)
    as [Hh Hg].
  fold w in Hh, Hg. fold g in Hh, Hg.
  unfold host_leads_seating in Hg. rewrite Hh in Hg.
  split; [split; reflexivity | ].
  split; [exact Hg | ].
  split.
  - intro ctx. rewrite start_complains. fold g. rewrite Hh, Hg.
    unfold dict_keys. simpl List.length. rewrite length_map.
    split; intros (Hr & Ha & Hn); repeat split; trivial; lia.
  - unfold every_seat_has_record. rewrite Hg. split.
    + intro Hall. apply Hall. now left.
    + intros Hhost k [<- | Hin]; [exact Hhost | ].
      now apply dict_contains_keys.
Qed.
